(** * Layout computation of the DaorsAgro architecture chart

    A shallow embedding of [chart_script.py]: the script turns a list of
    layers (each a list of components) into drawing primitives held by a
    plotly figure: separator lines, component rectangles, hover entries,
    text annotations and flow arrows.

    The script computes with Python floats.  The embedding is written once,
    over an interface [Arith] of the arithmetic operations the script uses,
    and read at two number types:
    - [Q], the exact reading, where a decimal literal denotes the rational
      it spells; the geometric laws are proved here for every diagram;
    - [float], IEEE 754 binary64 (the arithmetic Python runs), where the
      script is evaluated on concrete diagrams.

    Python's [/] raises [ZeroDivisionError] on a zero divisor, so the
    script runs in an error monad; the figure and the [hover_data] list it
    mutates are threaded as explicit state. *)

From Stdlib Require Import ZArith QArith List String Ascii Bool Lia Lqa.
From Stdlib Require Import PrimFloat Uint63 SpecFloat FloatOps.
Import ListNotations.

Set Implicit Arguments.
Local Open Scope Z_scope.

(** ** Exceptions and the error monad *)

Inductive exn : Type :=
| ZeroDivisionError
| KeyError (key : string).

Inductive result (A : Type) : Type :=
| Ok (a : A)
| Raise (e : exn).

Arguments Ok {A} a.
Arguments Raise {A} e.

Definition bind {A B : Type} (m : result A) (k : A -> result B) : result B :=
  match m with
  | Ok a => k a
  | Raise e => Raise e
  end.

Notation "x <- m ;; k" := (bind m (fun x => k))
  (at level 61, m at next level, right associativity).
Notation "' pat <- m ;; k" := (bind m (fun x => match x with pat => k end))
  (at level 61, pat pattern, m at next level, right associativity).

(** A [for] loop over [xs] whose body updates the state [s] and may raise. *)
Fixpoint for_each {X S : Type} (xs : list X) (body : X -> S -> result S)
  (s : S) : result S :=
  match xs with
  | [] => Ok s
  | x :: rest => s' <- body x s ;; for_each rest body s'
  end.

(** Python's [range(lo, hi)] and [enumerate]. *)
Definition range (lo hi : Z) : list Z :=
  map (fun k => lo + Z.of_nat k) (seq 0 (Z.to_nat (hi - lo))).

Fixpoint enumerate_from {X : Type} (i : Z) (xs : list X) : list (Z * X) :=
  match xs with
  | [] => []
  | x :: rest => (i, x) :: enumerate_from (i + 1) rest
  end.

Definition enumerate {X : Type} (xs : list X) : list (Z * X) :=
  enumerate_from 0 xs.

(** Python's [len]. *)
Definition len {X : Type} (xs : list X) : Z := Z.of_nat (List.length xs).

(** ** The arithmetic of the script

    [of_int] is the coercion Python applies to an [int] operand that meets
    a float; [lit m d] is the decimal literal [m/d] ([d] a power of ten).
    [quot] is the quotient on a non-zero divisor; [div] below adds
    Python's check.  The one law is what every division of the script
    relies on: its divisor, the literal [2], is not zero. *)

Class Arith (R : Type) : Type := {
  of_int : Z -> R;
  lit : Z -> Z -> R;
  add : R -> R -> R;
  sub : R -> R -> R;
  mul : R -> R -> R;
  neg : R -> R;
  quot : R -> R -> R;
  is_zero : R -> bool;
  two_nonzero : is_zero (of_int 2) = false
}.

Definition div {R : Type} {A : Arith R} (x y : R) : result R :=
  if is_zero y then Raise ZeroDivisionError else Ok (quot x y).

(** ** Strings: [str.replace]

    [replace old new s] is Python's [s.replace(old, new)] for a non-empty
    [old]: the occurrences of [old] are found from the left, never
    overlapping, and each is replaced by [new].  [skip] counts the
    characters of a matched occurrence still to be passed over. *)

Fixpoint replace_from (old new : string) (skip : nat) (s : string) : string :=
  match s with
  | EmptyString => EmptyString
  | String c rest =>
      match skip with
      | S k => replace_from old new k rest
      | O =>
          if String.prefix old s
          then (new ++ replace_from old new (String.length old - 1) rest)%string
          else String c (replace_from old new 0 rest)
      end
  end.

Definition replace (old new s : string) : string := replace_from old new 0 s.

(** ** Input: the diagram

    [color] is handed to plotly as [fillcolor]; plotly refuses a string
    that is no colour with a [ValueError].  The embedding leaves this
    check out: the colours of a diagram are taken to be ones plotly
    accepts. *)

Record Component : Type := {
  name : string;
  description : string;
  color : string
}.

Record Layer : Type := {
  layer_name : string;
  components : list Component
}.

Definition Diagram : Type := list Layer.

(** ** The figure and what is drawn on it *)

(** A piece of a hover template: literal text or [%{customdata[i]}]. *)
Inductive piece : Type :=
| Text (s : string)
| Customdata (i : nat).

Section Figure.
Variable R : Type.

(** [fig.add_shape(type="line", ...)] and [fig.add_shape(type="rect", ...)];
    the constant line styles are left out. *)
Inductive Shape : Type :=
| Line (x0 x1 y0 y1 : R)
| Rect (x0 y0 x1 y1 : R) (fillcolor : string).

(** A dict appended to [hover_data]. *)
Record HoverEntry : Type := {
  h_x : R;
  h_y : R;
  h_name : string;
  h_description : string;
  h_layer : string
}.

(** [fig.add_annotation(...)], argument by argument; [None] is an
    argument the call does not give.  [x], [y] are data coordinates: with
    [showarrow] the arrow's head is there.  [ax], [ay] are given for
    arrows only, [textangle] for layer labels only.  The script never
    gives [axref] or [ayref]; plotly then reads [ax], [ay] as offsets in
    pixels of the arrow's tail from its head, not as coordinates of the
    plot. *)
Record Annotation : Type := {
  a_x : R;
  a_y : R;
  a_text : string;
  a_showarrow : bool;
  a_ax : option R;
  a_ay : option R;
  a_axref : option string;
  a_ayref : option string;
  a_textangle : option Z
}.

(** [go.Scatter(x=..., y=..., hovertemplate=..., customdata=...)]. *)
Record Scatter : Type := {
  s_x : list R;
  s_y : list R;
  s_hovertemplate : list piece;
  s_customdata : list (list string)
}.

Record Figure : Type := {
  shapes : list Shape;
  traces : list Scatter;
  annotations : list Annotation;
  title : option string;
  xaxis_range : option (R * R);
  yaxis_range : option (R * R)
}.

(** [go.Figure()]. *)
Definition empty_figure : Figure :=
  {| shapes := []; traces := []; annotations := [];
     title := None; xaxis_range := None; yaxis_range := None |}.

Definition add_shape (s : Shape) (fig : Figure) : Figure :=
  {| shapes := shapes fig ++ [s]; traces := traces fig;
     annotations := annotations fig; title := title fig;
     xaxis_range := xaxis_range fig; yaxis_range := yaxis_range fig |}.

Definition add_trace (t : Scatter) (fig : Figure) : Figure :=
  {| shapes := shapes fig; traces := traces fig ++ [t];
     annotations := annotations fig; title := title fig;
     xaxis_range := xaxis_range fig; yaxis_range := yaxis_range fig |}.

Definition add_annotation (a : Annotation) (fig : Figure) : Figure :=
  {| shapes := shapes fig; traces := traces fig;
     annotations := annotations fig ++ [a]; title := title fig;
     xaxis_range := xaxis_range fig; yaxis_range := yaxis_range fig |}.

Definition update_layout (t : string) (xr yr : R * R) (fig : Figure) : Figure :=
  {| shapes := shapes fig; traces := traces fig;
     annotations := annotations fig; title := Some t;
     xaxis_range := Some xr; yaxis_range := Some yr |}.

End Figure.

(** The text plotly shows for a point: the template with each
    [%{customdata[i]}] replaced by the point's i-th custom datum. *)
Fixpoint render (template : list piece) (customdata : list string) : string :=
  match template with
  | [] => EmptyString
  | Text s :: rest => (s ++ render rest customdata)%string
  | Customdata i :: rest =>
      (nth i customdata EmptyString ++ render rest customdata)%string
  end.

Arguments Line {R} x0 x1 y0 y1.
Arguments Rect {R} x0 y0 x1 y1 fillcolor.
Arguments empty_figure {R}.

(** ** The script *)

Section Script.
Context {R : Type} {A : Arith R}.

(** Lines 69-72. *)
Definition layer_height : R := lit 12 10.
Definition component_width : R := lit 22 10.
Definition component_height : R := lit 8 10.
Definition layer_gap : R := lit 8 10.

(** Line 75: [layers = list(reversed(data["architecture"]["layers"]))]. *)
Definition layers (data : Diagram) : list Layer := rev data.

(** Line 76. *)
Definition total_layers (data : Diagram) : Z := len (layers data).

(** *** Separator lines (lines 79-88) *)

Definition y_line (total_layers layer_idx : Z) : result R :=
  half_gap <- div layer_gap (of_int 2) ;;
  Ok (sub (mul (of_int (total_layers - layer_idx)) (add layer_height layer_gap))
          half_gap).

Definition add_separators (total_layers : Z) (fig : Figure R) : result (Figure R) :=
  for_each (range 1 total_layers)
    (fun layer_idx fig =>
       y <- y_line total_layers layer_idx ;;
       Ok (add_shape (Line (of_int (-8)) (of_int 8) y y) fig))
    fig.

(** *** Component rectangles and hover data (lines 91-122) *)

Definition y_pos (total_layers layer_idx : Z) : R :=
  mul (of_int (total_layers - layer_idx - 1)) (add layer_height layer_gap).

Definition total_width (num_components : Z) : R :=
  add (mul (of_int num_components) component_width)
      (mul (of_int (num_components - 1)) (lit 3 10)).

Definition start_x (num_components : Z) : result R :=
  div (neg (total_width num_components)) (of_int 2).

Definition x_pos (start_x : R) (comp_idx : Z) : R :=
  add start_x (mul (of_int comp_idx) (add component_width (lit 3 10))).

(** The body of the inner loop: one rectangle, one hover entry. *)
Definition add_component (layer : Layer) (y_pos start_x : R)
  (ic : Z * Component) (st : Figure R * list (HoverEntry R))
  : result (Figure R * list (HoverEntry R)) :=
  let '(comp_idx, component) := ic in
  let '(fig, hover_data) := st in
  let x_pos := x_pos start_x comp_idx in
  let fig := add_shape (Rect x_pos y_pos
                             (add x_pos component_width)
                             (add y_pos component_height)
                             (color component)) fig in
  half_width <- div component_width (of_int 2) ;;
  half_height <- div component_height (of_int 2) ;;
  Ok (fig,
      hover_data ++
      [ {| h_x := add x_pos half_width;
           h_y := add y_pos half_height;
           h_name := name component;
           h_description := description component;
           h_layer := replace " Layer" "" (layer_name layer) |} ]).

(** The body of the outer loop: one row. *)
Definition add_layer (total_layers : Z) (il : Z * Layer)
  (st : Figure R * list (HoverEntry R))
  : result (Figure R * list (HoverEntry R)) :=
  let '(layer_idx, layer) := il in
  let y_pos := y_pos total_layers layer_idx in
  let components := components layer in
  let num_components := len components in
  start_x <- start_x num_components ;;
  for_each (enumerate components) (add_component layer y_pos start_x) st.

Definition add_components (layers : list Layer) (total_layers : Z)
  (fig : Figure R) : result (Figure R * list (HoverEntry R)) :=
  for_each (enumerate layers) (add_layer total_layers) (fig, []).

(** *** The invisible scatter trace (lines 125-135)

    [hover_df = pd.DataFrame(hover_data)] has the columns of the dicts
    of [hover_data]; built from the empty list it has none, and
    selecting a column raises [KeyError]. *)

Definition column {X : Type} (key : string) (field : HoverEntry R -> X)
  (hover_df : list (HoverEntry R)) : result (list X) :=
  match hover_df with
  | [] => Raise (KeyError key)
  | _ => Ok (map field hover_df)
  end.

Definition hovertemplate : list piece :=
  [ Text "<b>"; Customdata 0; Text "</b><br>"; Customdata 1;
    Text "<br><i>"; Customdata 2; Text " Layer</i><extra></extra>" ].

Definition add_hover_trace (hover_data : list (HoverEntry R))
  (fig : Figure R) : result (Figure R) :=
  let hover_df := hover_data in
  xs <- column "x" (@h_x R) hover_df ;;
  ys <- column "y" (@h_y R) hover_df ;;
  customdata <- column "name"
                  (fun item => [h_name item; h_description item; h_layer item])
                  hover_df ;;
  Ok (add_trace {| s_x := xs; s_y := ys;
                   s_hovertemplate := hovertemplate;
                   s_customdata := customdata |} fig).

(** *** Component names (lines 138-146) *)

Definition add_component_names (hover_data : list (HoverEntry R))
  (fig : Figure R) : result (Figure R) :=
  for_each hover_data
    (fun item fig =>
       Ok (add_annotation
             {| a_x := h_x item; a_y := h_y item;
                a_text := "<b>" ++ h_name item ++ "</b>";
                a_showarrow := false;
                a_ax := None; a_ay := None; a_axref := None; a_ayref := None; a_textangle := None |} fig))
    fig.

(** *** Layer labels (lines 149-159) *)

Definition add_layer_labels (layers : list Layer) (total_layers : Z)
  (fig : Figure R) : result (Figure R) :=
  for_each (enumerate layers)
    (fun '(layer_idx, layer) fig =>
       let y_pos := y_pos total_layers layer_idx in
       half_height <- div component_height (of_int 2) ;;
       Ok (add_annotation
             {| a_x := of_int (-9); a_y := add y_pos half_height;
                a_text := "<b>" ++ replace " Layer" "" (layer_name layer) ++ "</b>";
                a_showarrow := false;
                a_ax := None; a_ay := None; a_axref := None; a_ayref := None; a_textangle := Some (-90) |} fig))
    fig.

(** *** Flow arrows (lines 162-179)

    The head of each arrow is at [(x, y)]; [ax] and [ay] are passed with
    no [axref], [ayref]. *)

Definition y_start (total_layers layer_idx : Z) : R :=
  sub (mul (of_int (total_layers - layer_idx - 1)) (add layer_height layer_gap))
      (lit 1 10).

Definition y_end (total_layers layer_idx : Z) : R :=
  add (add (mul (of_int (total_layers - layer_idx - 2)) (add layer_height layer_gap))
           component_height)
      (lit 1 10).

Definition add_arrows (total_layers : Z) (fig : Figure R) : result (Figure R) :=
  for_each (range 0 (total_layers - 1))
    (fun layer_idx fig =>
       let y_start := y_start total_layers layer_idx in
       let y_end := y_end total_layers layer_idx in
       for_each [-2; 0; 2]
         (fun x_offset fig =>
            mid <- div (add y_start y_end) (of_int 2) ;;
            Ok (add_annotation
                  {| a_x := of_int x_offset; a_y := mid;
                     a_text := "";
                     a_showarrow := true;
                     a_ax := Some (of_int x_offset); a_ay := Some y_start;
                     a_axref := None; a_ayref := None; a_textangle := None |} fig))
         fig)
    fig.

(** *** Axes and caption (lines 182-211) *)

Definition set_layout (total_layers : Z) (fig : Figure R) : Figure R :=
  update_layout "DaorsAgro Platform Architecture"
    (of_int (-10), of_int 10)
    (of_int (-1),
     add (mul (of_int total_layers) (add layer_height layer_gap)) (of_int 1))
    fig.

Definition add_caption (total_layers : Z) (fig : Figure R) : Figure R :=
  add_annotation
    {| a_x := of_int 0;
       a_y := add (mul (of_int total_layers) (add layer_height layer_gap)) (lit 3 10);
       a_text := "↓ Data Flow: Frontend → API Gateway → Microservices → Databases/External Systems ↓";
       a_showarrow := false;
       a_ax := None; a_ay := None; a_axref := None; a_ayref := None; a_textangle := None |} fig.

(** *** The whole script, from [fig] on: the figure it ends with and
    [hover_data].  Line 66 starts it on [go.Figure()]. *)

Definition run (data : Diagram) (fig : Figure R)
  : result (Figure R * list (HoverEntry R)) :=
  let layers := layers data in
  let total_layers := len layers in
  fig <- add_separators total_layers fig ;;
  '(fig, hover_data) <- add_components layers total_layers fig ;;
  fig <- add_hover_trace hover_data fig ;;
  fig <- add_component_names hover_data fig ;;
  fig <- add_layer_labels layers total_layers fig ;;
  fig <- add_arrows total_layers fig ;;
  let fig := set_layout total_layers fig in
  let fig := add_caption total_layers fig in
  Ok (fig, hover_data).

Definition script (data : Diagram) : result (Figure R * list (HoverEntry R)) :=
  run data empty_figure.

End Script.

(** ** The two readings of the arithmetic *)

(** Exact: decimal literals are the rationals they spell. *)
#[export] Instance Q_Arith : Arith Q := {|
  of_int := inject_Z;
  lit := fun m d => Qmake m (Z.to_pos d);
  add := Qplus;
  sub := Qminus;
  mul := Qmult;
  neg := Qopp;
  quot := Qdiv;
  is_zero := fun q => Qeq_bool q 0;
  two_nonzero := eq_refl
|}.

(** Binary64.  An [int] below 2^63 in magnitude is rounded to the nearest
    float, as Python does; a decimal literal [m/d] with [m] and [d] exact
    floats is the correctly rounded quotient, the float Python reads the
    literal as. *)
Definition float_of_int (z : Z) : float :=
  if z <? 0 then PrimFloat.opp (PrimFloat.of_uint63 (Uint63.of_Z (- z)))
  else PrimFloat.of_uint63 (Uint63.of_Z z).

#[export] Instance float_Arith : Arith float := {|
  of_int := float_of_int;
  lit := fun m d => PrimFloat.div (float_of_int m) (float_of_int d);
  add := PrimFloat.add;
  sub := PrimFloat.sub;
  mul := PrimFloat.mul;
  neg := PrimFloat.opp;
  quot := PrimFloat.div;
  is_zero := fun x => PrimFloat.eqb x PrimFloat.zero;
  two_nonzero := eq_refl
|}.

(** The literals of the script, as the binary64 values Python reads them
    as ([float.hex] of 1.2, 2.2, 0.8, 0.3 and 0.1). *)
Lemma literals_in_binary64 :
  lit (R:=float) 12 10 = 0x1.3333333333333p+0%float
  /\ lit (R:=float) 22 10 = 0x1.199999999999ap+1%float
  /\ lit (R:=float) 8 10 = 0x1.999999999999ap-1%float
  /\ lit (R:=float) 3 10 = 0x1.3333333333333p-2%float
  /\ lit (R:=float) 1 10 = 0x1.999999999999ap-4%float.
Proof. repeat split; vm_compute; reflexivity. Qed.

(** ** The diagram the script embeds (lines 6-63) *)

Definition comp (n d c : string) : Component :=
  {| name := n; description := d; color := c |}.

Definition data : Diagram :=
  [ {| layer_name := "Frontend Layer";
       components :=
         [ comp "React PWA" "Web app offline support" "#61DAFB";
           comp "React Native" "Cross-platform mobile" "#61DAFB";
           comp "Shared Comp" "Common UI components" "#4FC3F7" ] |};
    {| layer_name := "API Gateway Layer";
       components :=
         [ comp "Kong/Nginx" "API routing & auth" "#FF6B35";
           comp "Load Balancer" "Traffic distribution" "#FF8A65" ] |};
    {| layer_name := "Microservices Layer";
       components :=
         [ comp "Auth Service" "Authentication" "#4CAF50";
           comp "Financial Svc" "Transaction mgmt" "#4CAF50";
           comp "Subsidy Svc" "Gov program mgmt" "#4CAF50";
           comp "Insurance Svc" "Policy & claims" "#4CAF50";
           comp "Analytics Svc" "ML & BI" "#4CAF50";
           comp "Document Svc" "File & OCR" "#4CAF50";
           comp "Notify Svc" "Multi-channel msg" "#4CAF50" ] |};
    {| layer_name := "Message Queue Layer";
       components :=
         [ comp "Apache Kafka" "Event streaming" "#9C27B0";
           comp "Redis" "Cache & session" "#E91E63" ] |};
    {| layer_name := "Database Layer";
       components :=
         [ comp "PostgreSQL" "Relational data" "#336791";
           comp "MongoDB" "Document storage" "#47A248";
           comp "ClickHouse" "Analytics data" "#FFEB3B";
           comp "Elasticsearch" "Search & logging" "#F4B942" ] |};
    {| layer_name := "External Integration Layer";
       components :=
         [ comp "IoT Platforms" "ThingsBoard AWS" "#607D8B";
           comp "Weather APIs" "Real-time weather" "#03A9F4";
           comp "Gov APIs" "Subsidy systems" "#795548";
           comp "Insurance APIs" "Provider integrat" "#FF5722" ] |} ].

(** ** Loops as list comprehensions *)

Lemma for_each_ext {X S : Type} (xs : list X) (f g : X -> S -> result S) (s : S) :
  (forall x s', f x s' = g x s') -> for_each xs f s = for_each xs g s.
Proof.
  intros Hfg. revert s.
  induction xs as [|x rest IH]; intros s; simpl; [reflexivity|].
  rewrite Hfg. destruct (g x s); simpl; auto.
Qed.

Lemma for_each_total {X S : Type} (xs : list X) (step : X -> S -> S) (s : S) :
  for_each xs (fun x s' => Ok (step x s')) s
  = Ok (fold_left (fun s' x => step x s') xs s).
Proof.
  revert s. induction xs as [|x rest IH]; intros s; simpl; auto.
Qed.

Lemma for_each_app {X S : Type} (xs ys : list X) (f : X -> S -> result S) (s : S) :
  for_each (xs ++ ys) f s = (s' <- for_each xs f s ;; for_each ys f s').
Proof.
  revert s. induction xs as [|x rest IH]; intros s; simpl; [reflexivity|].
  destruct (f x s); simpl; auto.
Qed.

Lemma enumerate_from_length {X : Type} (xs : list X) (i : Z) :
  List.length (enumerate_from i xs) = List.length xs.
Proof.
  revert i. induction xs as [|x rest IH]; intros i; simpl; auto.
Qed.

Lemma enumerate_from_app {X : Type} (xs ys : list X) (i : Z) :
  enumerate_from i (xs ++ ys)
  = enumerate_from i xs ++ enumerate_from (i + len xs) ys.
Proof.
  revert i. induction xs as [|x rest IH]; intros i; simpl.
  - unfold len; simpl. now rewrite Z.add_0_r.
  - rewrite IH. do 3 f_equal. unfold len; simpl List.length. lia.
Qed.

Lemma enumerate_from_nth {X : Type} (xs : list X) (i : Z) (k : nat) (dz : Z) (dx : X) :
  (k < List.length xs)%nat ->
  nth k (enumerate_from i xs) (dz, dx) = (i + Z.of_nat k, nth k xs dx).
Proof.
  revert i k. induction xs as [|x rest IH]; intros i k Hk; simpl in *; [lia|].
  destruct k as [|k].
  - now rewrite Z.add_0_r.
  - rewrite IH by lia. f_equal. lia.
Qed.

Lemma enumerate_from_snd {X : Type} (xs : list X) (i : Z) :
  map snd (enumerate_from i xs) = xs.
Proof.
  revert i. induction xs as [|x rest IH]; intros i; simpl; [reflexivity|].
  now rewrite IH.
Qed.

Lemma range_length (lo hi : Z) : List.length (range lo hi) = Z.to_nat (hi - lo).
Proof. unfold range. now rewrite length_map, length_seq. Qed.

Lemma range_nth (lo hi : Z) (k : nat) (dz : Z) :
  (k < Z.to_nat (hi - lo))%nat -> nth k (range lo hi) dz = lo + Z.of_nat k.
Proof.
  intros Hk. unfold range.
  rewrite nth_indep with (d' := lo + Z.of_nat 0)
    by now rewrite length_map, length_seq.
  change (lo + Z.of_nat 0) with ((fun j => lo + Z.of_nat j) 0%nat).
  rewrite map_nth, seq_nth by assumption. reflexivity.
Qed.

(** ** What each block of the script adds to the figure

    With the divisor [2] non-zero no division raises, and each loop adds a
    list of primitives that is a comprehension over its range. *)

Section Description.
Context {R : Type} {A : Arith R}.

Definition half (x : R) : R := quot x (of_int 2).

Lemma div_two (x : R) : div x (of_int 2) = Ok (half x).
Proof. unfold div, half. now rewrite two_nonzero. Qed.

Definition add_shapes (ss : list (Shape R)) (fig : Figure R) : Figure R :=
  {| shapes := shapes fig ++ ss; traces := traces fig;
     annotations := annotations fig; title := title fig;
     xaxis_range := xaxis_range fig; yaxis_range := yaxis_range fig |}.

Definition add_annotations (l : list (Annotation R)) (fig : Figure R) : Figure R :=
  {| shapes := shapes fig; traces := traces fig;
     annotations := annotations fig ++ l; title := title fig;
     xaxis_range := xaxis_range fig; yaxis_range := yaxis_range fig |}.

Lemma add_shapes_nil fig : add_shapes [] fig = fig.
Proof. destruct fig; unfold add_shapes; simpl. now rewrite app_nil_r. Qed.

Lemma add_shapes_cons s ss fig :
  add_shapes ss (add_shape s fig) = add_shapes (s :: ss) fig.
Proof. unfold add_shapes, add_shape; simpl. now rewrite <- app_assoc. Qed.

Lemma add_shapes_app ss1 ss2 fig :
  add_shapes ss2 (add_shapes ss1 fig) = add_shapes (ss1 ++ ss2) fig.
Proof. unfold add_shapes; simpl. now rewrite <- app_assoc. Qed.

Lemma add_annotations_nil fig : add_annotations [] fig = fig.
Proof. destruct fig; unfold add_annotations; simpl. now rewrite app_nil_r. Qed.

Lemma add_annotations_cons a l fig :
  add_annotations l (add_annotation a fig) = add_annotations (a :: l) fig.
Proof. unfold add_annotations, add_annotation; simpl. now rewrite <- app_assoc. Qed.

Lemma add_annotations_app l1 l2 fig :
  add_annotations l2 (add_annotations l1 fig) = add_annotations (l1 ++ l2) fig.
Proof. unfold add_annotations; simpl. now rewrite <- app_assoc. Qed.

Lemma fold_add_shape {X : Type} (f : X -> Shape R) (xs : list X) fig :
  fold_left (fun fig' x => add_shape (f x) fig') xs fig
  = add_shapes (map f xs) fig.
Proof.
  revert fig. induction xs as [|x rest IH]; intros fig; simpl.
  - now rewrite add_shapes_nil.
  - now rewrite IH, add_shapes_cons.
Qed.

Lemma fold_add_annotation {X : Type} (f : X -> Annotation R) (xs : list X) fig :
  fold_left (fun fig' x => add_annotation (f x) fig') xs fig
  = add_annotations (map f xs) fig.
Proof.
  revert fig. induction xs as [|x rest IH]; intros fig; simpl.
  - now rewrite add_annotations_nil.
  - now rewrite IH, add_annotations_cons.
Qed.

(** *** Separator lines *)

Definition separator (total_layers layer_idx : Z) : Shape R :=
  let y := sub (mul (of_int (total_layers - layer_idx)) (add layer_height layer_gap))
               (half layer_gap) in
  Line (of_int (-8)) (of_int 8) y y.

Definition separators (total_layers : Z) : list (Shape R) :=
  map (separator total_layers) (range 1 total_layers).

Lemma y_line_ok total idx :
  y_line total idx
  = Ok (sub (mul (of_int (total - idx)) (add layer_height layer_gap))
            (half layer_gap)).
Proof. unfold y_line. now rewrite div_two. Qed.

Lemma add_separators_ok total fig :
  add_separators total fig = Ok (add_shapes (separators total) fig).
Proof.
  unfold add_separators, separators.
  rewrite for_each_ext
    with (g := fun idx fig' => Ok (add_shape (separator total idx) fig')).
  - now rewrite for_each_total, fold_add_shape.
  - intros idx fig'. now rewrite y_line_ok.
Qed.

(** *** Rows of components *)

Definition first_x (num_components : Z) : R :=
  half (neg (total_width num_components)).

Lemma start_x_ok n : start_x n = Ok (first_x n).
Proof. unfold start_x, first_x. now rewrite div_two. Qed.

Definition box (y sx : R) (ic : Z * Component) : Shape R :=
  let x := x_pos sx (fst ic) in
  Rect x y (add x component_width) (add y component_height) (color (snd ic)).

Definition hover_entry (layer : Layer) (y sx : R) (ic : Z * Component)
  : HoverEntry R :=
  {| h_x := add (x_pos sx (fst ic)) (half component_width);
     h_y := add y (half component_height);
     h_name := name (snd ic);
     h_description := description (snd ic);
     h_layer := replace " Layer" "" (layer_name layer) |}.

Definition row_boxes (total_layers : Z) (il : Z * Layer) : list (Shape R) :=
  map (box (y_pos total_layers (fst il)) (first_x (len (components (snd il)))))
      (enumerate (components (snd il))).

Definition row_hover (total_layers : Z) (il : Z * Layer) : list (HoverEntry R) :=
  map (hover_entry (snd il) (y_pos total_layers (fst il))
         (first_x (len (components (snd il)))))
      (enumerate (components (snd il))).

Definition boxes (layers : list Layer) (total_layers : Z) : list (Shape R) :=
  flat_map (row_boxes total_layers) (enumerate layers).

Definition hover (layers : list Layer) (total_layers : Z) : list (HoverEntry R) :=
  flat_map (row_hover total_layers) (enumerate layers).

Lemma add_component_loop layer y sx ics fig hd :
  for_each ics (add_component layer y sx) (fig, hd)
  = Ok (add_shapes (map (box y sx) ics) fig,
        hd ++ map (hover_entry layer y sx) ics).
Proof.
  revert fig hd. induction ics as [|[k c] rest IH]; intros fig hd; simpl.
  - now rewrite add_shapes_nil, app_nil_r.
  - rewrite !div_two. simpl. rewrite IH.
    rewrite add_shapes_cons, <- app_assoc. reflexivity.
Qed.

Lemma add_layer_ok total il fig hd :
  add_layer total il (fig, hd)
  = Ok (add_shapes (row_boxes total il) fig, hd ++ row_hover total il).
Proof.
  destruct il as [idx layer]. unfold add_layer.
  rewrite start_x_ok. simpl. now rewrite add_component_loop.
Qed.

Lemma add_layer_loop total ils fig hd :
  for_each ils (add_layer total) (fig, hd)
  = Ok (add_shapes (flat_map (row_boxes total) ils) fig,
        hd ++ flat_map (row_hover total) ils).
Proof.
  revert fig hd. induction ils as [|il rest IH]; intros fig hd; simpl.
  - now rewrite add_shapes_nil, app_nil_r.
  - rewrite add_layer_ok. simpl. rewrite IH.
    now rewrite add_shapes_app, <- app_assoc.
Qed.

Lemma add_components_ok ls total fig :
  add_components ls total fig
  = Ok (add_shapes (boxes ls total) fig, hover ls total).
Proof. unfold add_components. now rewrite add_layer_loop. Qed.

End Description.

Section Annotations.
Context {R : Type} {A : Arith R}.

(** *** The hover trace *)

Definition hover_trace (hover_data : list (HoverEntry R)) : Scatter R :=
  {| s_x := map (@h_x R) hover_data;
     s_y := map (@h_y R) hover_data;
     s_hovertemplate := hovertemplate;
     s_customdata :=
       map (fun item => [h_name item; h_description item; h_layer item])
           hover_data |}.

Lemma add_hover_trace_nil (fig : Figure R) :
  add_hover_trace [] fig = Raise (KeyError "x").
Proof. reflexivity. Qed.

Lemma add_hover_trace_ok (hover_data : list (HoverEntry R)) (fig : Figure R) :
  hover_data <> [] ->
  add_hover_trace hover_data fig = Ok (add_trace (hover_trace hover_data) fig).
Proof.
  intros Hne. destruct hover_data as [|item rest]; [congruence|]. reflexivity.
Qed.

(** *** Component names *)

Definition name_annotation (item : HoverEntry R) : Annotation R :=
  {| a_x := h_x item; a_y := h_y item;
     a_text := "<b>" ++ h_name item ++ "</b>";
     a_showarrow := false;
     a_ax := None; a_ay := None; a_axref := None; a_ayref := None; a_textangle := None |}.

Lemma add_component_names_ok (hover_data : list (HoverEntry R)) fig :
  add_component_names hover_data fig
  = Ok (add_annotations (map name_annotation hover_data) fig).
Proof.
  unfold add_component_names.
  rewrite for_each_ext
    with (g := fun item fig' => Ok (add_annotation (name_annotation item) fig'))
    by reflexivity.
  now rewrite for_each_total, fold_add_annotation.
Qed.

(** *** Layer labels *)

Definition layer_label (total_layers : Z) (il : Z * Layer) : Annotation R :=
  {| a_x := of_int (-9);
     a_y := add (y_pos total_layers (fst il)) (half component_height);
     a_text := "<b>" ++ replace " Layer" "" (layer_name (snd il)) ++ "</b>";
     a_showarrow := false;
     a_ax := None; a_ay := None; a_axref := None; a_ayref := None; a_textangle := Some (-90) |}.

Definition layer_labels (layers : list Layer) (total_layers : Z)
  : list (Annotation R) :=
  map (layer_label total_layers) (enumerate layers).

Lemma add_layer_labels_ok ls total fig :
  add_layer_labels ls total fig
  = Ok (add_annotations (layer_labels ls total) fig).
Proof.
  unfold add_layer_labels, layer_labels.
  rewrite for_each_ext
    with (g := fun il fig' => Ok (add_annotation (layer_label total il) fig')).
  - now rewrite for_each_total, fold_add_annotation.
  - intros [idx layer] fig'. now rewrite div_two.
Qed.

(** *** Flow arrows *)

Definition arrow (total_layers layer_idx x_offset : Z) : Annotation R :=
  {| a_x := of_int x_offset;
     a_y := half (add (y_start total_layers layer_idx)
                      (y_end total_layers layer_idx));
     a_text := "";
     a_showarrow := true;
     a_ax := Some (of_int x_offset);
     a_ay := Some (y_start total_layers layer_idx);
     a_axref := None; a_ayref := None; a_textangle := None |}.

Definition arrow_group (total_layers layer_idx : Z) : list (Annotation R) :=
  map (arrow total_layers layer_idx) [-2; 0; 2].

Definition arrows (total_layers : Z) : list (Annotation R) :=
  flat_map (arrow_group total_layers) (range 0 (total_layers - 1)).

Lemma add_arrow_group_ok total idx fig :
  for_each [-2; 0; 2]
    (fun x_offset fig' =>
       mid <- div (add (y_start total idx) (y_end total idx)) (of_int 2) ;;
       Ok (add_annotation
             {| a_x := of_int x_offset; a_y := mid;
                a_text := "";
                a_showarrow := true;
                a_ax := Some (of_int x_offset);
                a_ay := Some (y_start total idx);
                a_axref := None; a_ayref := None; a_textangle := None |} fig'))
    fig
  = Ok (add_annotations (arrow_group total idx) fig).
Proof.
  rewrite for_each_ext
    with (g := fun x fig' => Ok (add_annotation (arrow total idx x) fig')).
  - now rewrite for_each_total, fold_add_annotation.
  - intros x fig'. now rewrite div_two.
Qed.

Lemma add_arrows_loop total idxs fig :
  for_each idxs
    (fun idx fig' => Ok (add_annotations (arrow_group total idx) fig')) fig
  = Ok (add_annotations (flat_map (arrow_group total) idxs) fig).
Proof.
  revert fig. induction idxs as [|idx rest IH]; intros fig.
  - simpl. now rewrite add_annotations_nil.
  - cbn [for_each bind flat_map]. now rewrite IH, add_annotations_app.
Qed.

Lemma add_arrows_ok total fig :
  add_arrows total fig = Ok (add_annotations (arrows total) fig).
Proof.
  unfold add_arrows, arrows.
  rewrite for_each_ext
    with (g := fun idx fig' => Ok (add_annotations (arrow_group total idx) fig')).
  - apply add_arrows_loop.
  - intros idx fig'. apply add_arrow_group_ok.
Qed.

(** *** The whole script

    [drawn data fig] is the figure the script ends with when it starts
    on [fig] and its hover data are not empty. *)

Definition drawn (data : Diagram) (fig : Figure R) : Figure R :=
  let ls := layers data in
  let total := len ls in
  add_caption total
    (set_layout total
       (add_annotations
          (map name_annotation (hover ls total)
           ++ layer_labels ls total ++ arrows total)
          (add_trace (hover_trace (hover ls total))
             (add_shapes (separators total ++ boxes ls total) fig)))).

Lemma run_ok (data : Diagram) (fig : Figure R) :
  hover (layers data) (len (layers data)) <> [] ->
  run data fig = Ok (drawn data fig, hover (layers data) (len (layers data))).
Proof.
  intros Hne. unfold run, drawn.
  rewrite add_separators_ok. cbn [bind].
  rewrite add_components_ok. cbn [bind].
  rewrite add_hover_trace_ok by assumption. cbn [bind].
  rewrite add_component_names_ok. cbn [bind].
  rewrite add_layer_labels_ok. cbn [bind].
  rewrite add_arrows_ok. cbn [bind].
  rewrite add_shapes_app.
  do 3 f_equal.
  unfold add_annotations, add_trace, add_shapes; cbn.
  now rewrite <- !app_assoc.
Qed.

Lemma run_no_hover (data : Diagram) (fig : Figure R) :
  hover (layers data) (len (layers data)) = [] ->
  run data fig = Raise (KeyError "x").
Proof.
  intros Hnil. unfold run.
  rewrite add_separators_ok. cbn [bind].
  rewrite add_components_ok. cbn [bind].
  now rewrite Hnil.
Qed.

End Annotations.

(** ** Rows, as lists *)

Lemma enumerate_fst {X : Type} (xs : list X) :
  map fst (enumerate xs) = range 0 (len xs).
Proof.
  unfold enumerate, range, len. rewrite Z.sub_0_r, Nat2Z.id.
  assert (H : forall (l : list X) (i : Z) (j : nat),
             i = Z.of_nat j ->
             map fst (enumerate_from i l)
             = map (fun k => 0 + Z.of_nat k) (seq j (List.length l))).
  { induction l as [|x rest IH]; intros i j Hi; simpl; [reflexivity|].
    f_equal; [lia|]. apply IH. lia. }
  now apply H.
Qed.

Lemma nth_map_enumerate {X Y : Type} (f : Z * X -> Y) (xs : list X)
  (k : nat) (dy : Y) (dx : X) :
  (k < List.length xs)%nat ->
  nth k (map f (enumerate xs)) dy = f (Z.of_nat k, nth k xs dx).
Proof.
  intros Hk.
  rewrite nth_indep with (d' := f (0, dx))
    by now rewrite length_map; unfold enumerate; rewrite enumerate_from_length.
  rewrite map_nth. unfold enumerate.
  now rewrite enumerate_from_nth by assumption.
Qed.

Lemma in_range (lo hi b : Z) : In b (range lo hi) <-> lo <= b < hi.
Proof.
  unfold range. rewrite in_map_iff. split.
  - intros [k [Hb Hk]]. apply in_seq in Hk. lia.
  - intros Hb. exists (Z.to_nat (b - lo)). split; [lia|].
    apply in_seq. lia.
Qed.

Lemma row_boxes_length {R : Type} {A : Arith R} (total : Z) (il : Z * Layer) :
  List.length (row_boxes (R:=R) total il) = List.length (components (snd il)).
Proof.
  unfold row_boxes, enumerate. now rewrite length_map, enumerate_from_length.
Qed.

Lemma row_hover_length {R : Type} {A : Arith R} (total : Z) (il : Z * Layer) :
  List.length (row_hover (R:=R) total il) = List.length (components (snd il)).
Proof.
  unfold row_hover, enumerate. now rewrite length_map, enumerate_from_length.
Qed.

(** ** The exact reading: geometry over the rationals *)

Local Open Scope Q_scope.

Lemma inject_Z_sub (a b : Z) : inject_Z (a - b) == inject_Z a - inject_Z b.
Proof. unfold Z.sub. now rewrite inject_Z_plus, inject_Z_opp. Qed.

Ltac inject_consts :=
  repeat match goal with
    | |- context [inject_Z (Zpos ?p)] =>
        change (inject_Z (Zpos p)) with (Zpos p # 1)
    | |- context [inject_Z (Zneg ?p)] =>
        change (inject_Z (Zneg p)) with (Zneg p # 1)
    | |- context [inject_Z Z0] => change (inject_Z Z0) with (0 # 1)
    end.

(** Unfolds the script's formulas at [Q] down to rational arithmetic over
    the injections of its integer variables. *)
Ltac exact_arith :=
  unfold first_x, half, y_pos, y_start, y_end, total_width, x_pos;
  unfold layer_height, layer_gap, component_width, component_height;
  cbn [of_int lit add sub mul neg quot Q_Arith Z.to_pos];
  rewrite ?inject_Z_sub, ?inject_Z_plus, ?inject_Z_mult, ?inject_Z_opp;
  inject_consts;
  unfold Qdiv; change (/ 2) with (1 # 2).

Lemma row_spacing_exact : layer_height + layer_gap == 2.
Proof. exact_arith. reflexivity. Qed.

Lemma y_pos_exact (total i : Z) :
  y_pos total i == (inject_Z total - inject_Z i - 1) * 2.
Proof. exact_arith. lra. Qed.

Lemma first_x_exact (n : Z) :
  first_x n == - (inject_Z n * (22 # 10) + (inject_Z n - 1) * (3 # 10)) / 2.
Proof. exact_arith. lra. Qed.

(** C6: at reversed index [i] the row origin is
    [(total_layers - i - 1) * (layer_height + layer_gap)]; every rectangle
    of that row spans [y0 = y(i)] to [y1 = y(i) + component_height]; the
    origins strictly decrease as [i] grows, by [layer_height + layer_gap]
    each step.  The indices of the reversed list run from 0. *)
Theorem row_origins_stack (data : Diagram) (fig : Figure Q) :
  let ls := layers data in
  let total := len ls in
  add_components ls total fig
  = Ok (add_shapes (flat_map (row_boxes total) (enumerate ls)) fig,
        flat_map (row_hover total) (enumerate ls))
  /\ map fst (enumerate ls) = range 0 total
  /\ (forall i : Z,
        y_pos total i == inject_Z (total - i - 1) * (layer_height + layer_gap))
  /\ (forall il : Z * Layer,
        Forall (fun s => exists x0 x1 c,
                    s = Rect x0 (y_pos total (fst il))
                             x1 (y_pos total (fst il) + component_height) c)
               (row_boxes total il))
  /\ (forall i : Z, y_pos total (i + 1) < y_pos total i)
  /\ (forall i : Z,
        y_pos total i - y_pos total (i + 1) == layer_height + layer_gap).
Proof.
  intros ls total.
  split; [apply add_components_ok|].
  split; [apply enumerate_fst|].
  split; [intros i; reflexivity|].
  split; [|split].
  - intros il. unfold row_boxes. apply Forall_forall. intros s Hs.
    apply in_map_iff in Hs. destruct Hs as [ic [Hs _]]. subst s.
    unfold box. eauto.
  - intros i. exact_arith. lra.
  - intros i. exact_arith. lra.
Qed.

(** C8: the separator lines are horizontal, span x from -8 to 8, and
    there is one for each boundary index 1 .. total_layers - 1, at
    [(total_layers - boundary_index) * (layer_height + layer_gap) - layer_gap/2]. *)
Theorem separator_lines (data : Diagram) (fig : Figure Q) :
  let total := total_layers data in
  add_separators total fig
  = Ok (add_shapes (map (separator total) (range 1 total)) fig)
  /\ List.length (range 1 total) = (List.length data - 1)%nat
  /\ (forall b : Z, In b (range 1 total) <-> (1 <= b < total)%Z)
  /\ (forall b : Z, exists y : Q,
        separator total b = Line (-8) 8 y y
        /\ y == inject_Z (total - b) * (layer_height + layer_gap) - layer_gap / 2).
Proof.
  intros total.
  split; [apply add_separators_ok|].
  split; [|split].
  - rewrite range_length. unfold total, total_layers, layers, len.
    rewrite length_rev. lia.
  - intros b. apply in_range.
  - intros b. eexists. split; reflexivity.
Qed.

Lemma x_pos_exact (sx : Q) (k : Z) :
  x_pos sx k == sx + inject_Z k * (component_width + (3 # 10)).
Proof. reflexivity. Qed.

Definition no_shape : Shape Q := Line 0 0 0 0.

(** C5: in every row, taken in input order, the k-th rectangle runs from
    [x0(k) = start_x + k * (component_width + 0.3)] to
    [x1(k) = x0(k) + component_width], and [x1(k) <= x0(k+1)]: the next
    rectangle starts exactly the gap 0.3 further right. *)
Theorem boxes_do_not_overlap (total : Z) (il : Z * Layer) (k : nat) :
  (S k < List.length (components (snd il)))%nat ->
  exists (sx y x0k x1k x0k' x1k' : Q) (c c' : string),
    start_x (len (components (snd il))) = Ok sx
    /\ nth k (row_boxes total il) no_shape
       = Rect x0k y x1k (y + component_height) c
    /\ nth (S k) (row_boxes total il) no_shape
       = Rect x0k' y x1k' (y + component_height) c'
    /\ x0k == sx + inject_Z (Z.of_nat k) * (component_width + (3 # 10))
    /\ x1k == x0k + component_width
    /\ x0k' == sx + inject_Z (Z.of_nat (S k)) * (component_width + (3 # 10))
    /\ x1k <= x0k'
    /\ x0k' - x1k == 3 # 10.
Proof.
  intros Hk. destruct il as [idx layer]. cbn [snd] in *.
  set (cs := components layer) in *.
  set (dc := {| name := ""; description := ""; color := "" |}).
  exists (first_x (len cs)), (y_pos total idx).
  exists (x_pos (first_x (len cs)) (Z.of_nat k)).
  exists (x_pos (first_x (len cs)) (Z.of_nat k) + component_width).
  exists (x_pos (first_x (len cs)) (Z.of_nat (S k))).
  exists (x_pos (first_x (len cs)) (Z.of_nat (S k)) + component_width).
  exists (color (nth k cs dc)), (color (nth (S k) cs dc)).
  split; [apply start_x_ok|].
  split; [unfold row_boxes; cbn [fst snd]; fold cs;
          now rewrite nth_map_enumerate with (dx := dc) by lia|].
  split; [unfold row_boxes; cbn [fst snd]; fold cs;
          now rewrite nth_map_enumerate with (dx := dc) by lia|].
  split; [apply x_pos_exact|].
  split; [reflexivity|].
  split; [apply x_pos_exact|].
  rewrite Nat2Z.inj_succ. unfold Z.succ.
  generalize (first_x (R:=Q) (len cs)). intros sx.
  split; exact_arith; lra.
Qed.

Lemma boxes_do_not_overlap_witness :
  exists (sx y x0k x1k x0k' x1k' : Q) (c c' : string),
    start_x 2 = Ok sx
    /\ nth 0 (row_boxes 6 (4%Z, nth 1 data {| layer_name := ""; components := [] |}))
           no_shape
       = Rect x0k y x1k (y + component_height) c
    /\ nth 1 (row_boxes 6 (4%Z, nth 1 data {| layer_name := ""; components := [] |}))
           no_shape
       = Rect x0k' y x1k' (y + component_height) c'
    /\ x0k == sx + 0 * (component_width + (3 # 10))
    /\ x1k == x0k + component_width
    /\ x0k' == sx + 1 * (component_width + (3 # 10))
    /\ x1k <= x0k'
    /\ x0k' - x1k == 3 # 10.
Proof.
  apply (@boxes_do_not_overlap 6
           (4%Z, nth 1 data {| layer_name := ""; components := [] |}) 0%nat).
  simpl. lia.
Defined.

(** *** Flow arrows *)






(** ** Centering *)

Section Centering.
Context {R : Type} {A : Arith R}.

(** The sum and the mean of a list, added up from the left, starting
    at 0. *)
Definition sum (xs : list R) : R := fold_left add xs (of_int 0).

Definition mean (xs : list R) : R := quot (sum xs) (of_int (len xs)).

(** The centre x of each component of a row of [n] components: the [x]
    of its hover entry. *)
Definition centers (n : Z) : list R :=
  map (fun k => add (x_pos (first_x n) k) (half component_width)) (range 0 n).

Lemma row_hover_centers (total : Z) (il : Z * Layer) :
  map (@h_x R) (row_hover total il) = centers (len (components (snd il))).
Proof.
  unfold row_hover, centers. rewrite map_map.
  rewrite <- enumerate_fst, map_map. reflexivity.
Qed.

End Centering.

Lemma len_cons {X : Type} (x : X) (xs : list X) : len (x :: xs) = (len xs + 1)%Z.
Proof. unfold len. simpl List.length. lia. Qed.

Lemma sum_centers (l : Layer) (y sx : Q) (cs : list Component) :
  forall (i0 : Z) (acc : Q),
    fold_left Qplus
      (map (fun ic => h_x (hover_entry l y sx ic)) (enumerate_from i0 cs)) acc
    == acc + inject_Z (len cs) * (sx + (11 # 10))
       + (25 # 10) * (inject_Z (len cs) * inject_Z i0
                      + inject_Z (len cs) * (inject_Z (len cs) - 1) / 2).
Proof.
  induction cs as [|c rest IH]; intros i0 acc.
  - simpl. unfold len; simpl. change (inject_Z 0) with 0. field.
  - cbn [enumerate_from map fold_left]. rewrite IH. rewrite len_cons.
    cbn [h_x hover_entry fst]. exact_arith. field.
Qed.

Lemma sum_row_exact (total : Z) (il : Z * Layer) :
  sum (map (@h_x Q) (row_hover total il)) == 0.
Proof.
  unfold sum, row_hover, enumerate. rewrite map_map.
  change (@add Q Q_Arith) with Qplus.
  rewrite sum_centers. exact_arith. field.
Qed.

Lemma mean_row_exact (total : Z) (il : Z * Layer) :
  mean (map (@h_x Q) (row_hover total il)) == 0.
Proof.
  unfold mean. cbn [quot Q_Arith]. rewrite sum_row_exact.
  unfold Qdiv. ring.
Qed.

(** The rational a finite binary64 value is. *)
Definition float_to_Q (x : float) : Q :=
  match Prim2SF x with
  | S754_finite s m e =>
      (if s then - inject_Z (Zpos m) else inject_Z (Zpos m)) * Qpower 2 e
  | _ => 0
  end.

(** The Database layer of the embedded diagram: four components. *)
Definition database_layer : Layer :=
  nth 4 data {| layer_name := ""; components := [] |}.

(** The claim C4 as it is worded, a mean equal to 0, fails in the
    script's own arithmetic: for the four components of the Database layer
    the binary64 centres are -3.7500000000000004, -1.2500000000000004,
    1.2499999999999996 and 3.7499999999999996; neither their float mean
    nor the exact mean of these four values is 0. *)
Lemma centering_inexact_in_binary64 :
  ~ (forall (total : Z) (il : Z * Layer),
       components (snd il) <> [] ->
       is_zero (mean (map (@h_x float) (row_hover total il))) = true)
  /\ ~ (mean (map float_to_Q (map (@h_x float) (row_hover 6 (1%Z, database_layer))))
        == 0).
Proof.
  split.
  - intros H.
    specialize (H 6%Z (1%Z, database_layer)).
    assert (Hne : components (snd (1%Z, database_layer)) <> []) by discriminate.
    specialize (H Hne). vm_compute in H. discriminate.
  - intros H. vm_compute in H. discriminate.
Qed.

(** C4, as the script has it: [total_width] and [start_x] are the claimed
    formulas; read exactly, the mean of the centre x of a row of n >= 1
    components is 0; in binary64 a row of one component occupies exactly
    [-1.1, 1.1] with its centre at 0, and for rows of up to 40 components
    the mean is 0 up to rounding (below 1e-14 in magnitude). *)
Theorem row_is_centered (total idx : Z) (lname : string)
  (c : Component) (cs : list Component) :
  let layer := {| layer_name := lname; components := c :: cs |} in
  let n := len (c :: cs) in
  start_x n = Ok (first_x (R:=Q) n)
  /\ total_width n == inject_Z n * component_width + (inject_Z n - 1) * (3 # 10)
  /\ first_x n == - total_width n / 2
  /\ map (@h_x Q) (row_hover total (idx, layer)) = centers n
  /\ mean (map (@h_x Q) (row_hover total (idx, layer))) == 0
  /\ (start_x 1 = Ok (first_x (R:=Q) 1)
      /\ first_x 1 == - (11 # 10)
      /\ x_pos (first_x 1) 0 == - (11 # 10)
      /\ x_pos (first_x 1) 0 + component_width == 11 # 10)
  /\ (start_x 1 = Ok (neg (lit (R:=float) 11 10))
      /\ x_pos (first_x 1) 0 = neg (lit (R:=float) 11 10)
      /\ add (x_pos (first_x 1) 0) component_width = lit (R:=float) 11 10
      /\ centers 1 = [of_int (R:=float) 0])
  /\ forallb (fun m => PrimFloat.leb
                         (PrimFloat.abs (mean (centers (R:=float) m)))
                         (lit 1 100000000000000))
             (range 1 41) = true.
Proof.
  intros layer n.
  split; [apply start_x_ok|].
  split; [exact_arith; lra|].
  split; [exact_arith; lra|].
  split; [apply (row_hover_centers total (idx, layer))|].
  split; [apply mean_row_exact|].
  split; [split; [|split; [|split]]|split].
  - apply start_x_ok.
  - vm_compute. reflexivity.
  - vm_compute. reflexivity.
  - vm_compute. reflexivity.
  - repeat split; vm_compute; reflexivity.
  - vm_compute. reflexivity.
Qed.

(** ** Which input layer lands where *)

Local Open Scope Z_scope.

(** The layer labels are the annotations given a [textangle]. *)
Definition is_layer_label {R : Type} (a : Annotation R) : bool :=
  match a_textangle a with Some _ => true | None => false end.


(** The name of each layer with the row origin the components loop gives
    it, in loop order. *)
Definition row_origins {R : Type} {A : Arith R} (data : Diagram)
  : list (string * R) :=
  map (fun il => (layer_name (snd il), y_pos (total_layers data) (fst il)))
      (enumerate (layers data)).

(** The claim C1 as it is worded, the first input layer above the last,
    fails on the embedded diagram, evaluated in binary64: the first input
    layer (Frontend) gets the row origin 0, the lowest; the last input
    layer (External Integration) gets 10, the highest; the layer labels of
    the final figure sit 0.4 above these origins.  The y axis points up
    (its range is [-1, 13]). *)
Theorem first_input_layer_is_drawn_lowest :
  row_origins (R:=float) data
  = [ ("External Integration Layer"%string, of_int 10);
      ("Database Layer"%string, of_int 8);
      ("Message Queue Layer"%string, of_int 6);
      ("Microservices Layer"%string, of_int 4);
      ("API Gateway Layer"%string, of_int 2);
      ("Frontend Layer"%string, of_int 0) ]
  /\ PrimFloat.ltb (y_pos (total_layers data) 5) (y_pos (total_layers data) 0) = true
  /\ match script (R:=float) data with
     | Ok (fig, _) =>
         map (fun a => (a_text a, a_y a))
             (filter is_layer_label (annotations fig))
         = [ ("<b>External Integration</b>"%string, add (of_int 10) (lit 4 10));
             ("<b>Database</b>"%string, add (of_int 8) (lit 4 10));
             ("<b>Message Queue</b>"%string, add (of_int 6) (lit 4 10));
             ("<b>Microservices</b>"%string, add (of_int 4) (lit 4 10));
             ("<b>API Gateway</b>"%string, add (of_int 2) (lit 4 10));
             ("<b>Frontend</b>"%string, add (of_int 0) (lit 4 10)) ]
         /\ yaxis_range fig = Some (of_int (-1), of_int 13)
     | Raise _ => False
     end.
Proof. repeat split; vm_compute; reflexivity. Qed.

(** C1, as the script has it: the layers are processed in reverse of
    their input order, from the top row down.  For every diagram of two
    layers or more, read exactly, the last input layer comes first in the
    loop and gets the highest row origin (it is drawn at the top); the
    first input layer comes last and gets the row origin 0, strictly
    below (it is drawn at the bottom). *)
Lemma last_input_layer_on_top (l0 : Layer) (mid : list Layer) (l1 : Layer) :
  let data := l0 :: mid ++ [l1] in
  exists y_first y_last : Q,
    nth 0 (row_origins data) (EmptyString, 0%Q) = (layer_name l1, y_last)
    /\ nth (List.length data - 1) (row_origins data) (EmptyString, 0%Q)
       = (layer_name l0, y_first)
    /\ (y_first == 0)%Q
    /\ (y_first < y_last)%Q.
Proof.
  intros d.
  assert (Hls : layers d = l1 :: rev mid ++ [l0]).
  { unfold layers, d. simpl. rewrite rev_app_distr. reflexivity. }
  assert (Hn : total_layers d = len mid + 2).
  { unfold total_layers. rewrite Hls. unfold len. simpl List.length.
    rewrite length_app, length_rev. simpl. lia. }
  assert (Hlen : List.length d = S (S (List.length mid))).
  { unfold d. simpl. rewrite length_app. simpl. lia. }
  exists (y_pos (total_layers d) (len mid + 1)), (y_pos (total_layers d) 0).
  split; [|split; [|split]].
  - unfold row_origins. rewrite Hls. reflexivity.
  - unfold row_origins. rewrite Hls, Hlen.
    change (l1 :: rev mid ++ [l0]) with ((l1 :: rev mid) ++ [l0]).
    unfold enumerate. rewrite enumerate_from_app, map_app.
    rewrite app_nth2; rewrite length_map, enumerate_from_length; simpl List.length;
      rewrite length_rev; [|lia].
    replace (S (S (List.length mid)) - 1 - S (List.length mid))%nat with 0%nat by lia.
    cbn [enumerate_from map nth fst snd]. do 2 f_equal.
    unfold len. simpl List.length. rewrite length_rev. lia.
  - rewrite Hn. exact_arith. lra.
  - rewrite Hn. exact_arith.
    assert (H : (0 <= inject_Z (len mid))%Q).
    { change 0%Q with (inject_Z 0). rewrite <- Zle_Qle. unfold len. lia. }
    lra.
Qed.

(** ** What the script draws, counted *)

Section Counts.
Context {R : Type} {A : Arith R}.

Definition is_line (s : Shape R) : bool :=
  match s with Line _ _ _ _ => true | Rect _ _ _ _ _ => false end.

Definition is_rect (s : Shape R) : bool :=
  match s with Line _ _ _ _ => false | Rect _ _ _ _ _ => true end.

Lemma filter_all {X : Type} (p : X -> bool) (xs : list X) :
  (forall x, In x xs -> p x = true) -> filter p xs = xs.
Proof.
  induction xs as [|x rest IH]; intros H; simpl; [reflexivity|].
  rewrite (H x) by (left; reflexivity). f_equal. apply IH.
  intros y Hy. apply H. right. assumption.
Qed.

Lemma filter_none {X : Type} (p : X -> bool) (xs : list X) :
  (forall x, In x xs -> p x = false) -> filter p xs = [].
Proof.
  induction xs as [|x rest IH]; intros H; simpl; [reflexivity|].
  rewrite (H x) by (left; reflexivity). apply IH.
  intros y Hy. apply H. right. assumption.
Qed.

Lemma separators_are_lines (total : Z) (s : Shape R) :
  In s (separators total) -> is_line s = true /\ is_rect s = false.
Proof.
  unfold separators. intros Hs. apply in_map_iff in Hs.
  destruct Hs as [b [Hs _]]. subst s. split; reflexivity.
Qed.

Lemma boxes_are_rects (ls : list Layer) (total : Z) (s : Shape R) :
  In s (boxes ls total) -> is_rect s = true /\ is_line s = false.
Proof.
  unfold boxes. intros Hs. apply in_flat_map in Hs.
  destruct Hs as [il [_ Hs]]. unfold row_boxes in Hs.
  apply in_map_iff in Hs. destruct Hs as [ic [Hs _]]. subst s.
  split; reflexivity.
Qed.

Lemma arrows_show_arrow (total : Z) (a : Annotation R) :
  In a (arrows total) -> a_showarrow a = true.
Proof.
  unfold arrows. intros Ha. apply in_flat_map in Ha.
  destruct Ha as [idx [_ Ha]]. unfold arrow_group in Ha.
  apply in_map_iff in Ha. destruct Ha as [x [Ha _]]. now subst a.
Qed.

Lemma names_show_no_arrow (hd : list (HoverEntry R)) (a : Annotation R) :
  In a (map name_annotation hd) -> a_showarrow a = false.
Proof.
  intros Ha. apply in_map_iff in Ha. destruct Ha as [item [Ha _]]. now subst a.
Qed.

Lemma labels_show_no_arrow (ls : list Layer) (total : Z) (a : Annotation R) :
  In a (layer_labels ls total) -> a_showarrow a = false.
Proof.
  unfold layer_labels. intros Ha. apply in_map_iff in Ha.
  destruct Ha as [il [Ha _]]. now subst a.
Qed.

(** One hover entry per component, in loop order. *)
Lemma hover_per_component (total : Z) (ls : list Layer) (i : Z) :
  map (fun item => (h_name item, h_description item))
      (flat_map (row_hover total) (enumerate_from i ls))
  = map (fun c => (name c, description c)) (flat_map (@components) ls).
Proof.
  revert i. induction ls as [|l rest IH]; intros i; simpl; [reflexivity|].
  rewrite !map_app, IH. f_equal.
  unfold row_hover. cbn [fst snd]. rewrite map_map. cbn [h_name h_description hover_entry].
  rewrite <- (enumerate_from_snd (components l) 0) at 2.
  unfold enumerate. now rewrite map_map.
Qed.

Lemma boxes_per_component (total : Z) (ls : list Layer) (i : Z) :
  List.length (flat_map (row_boxes total) (enumerate_from i ls))
  = List.length (flat_map (@components) ls).
Proof.
  revert i. induction ls as [|l rest IH]; intros i; simpl; [reflexivity|].
  now rewrite !length_app, IH, row_boxes_length.
Qed.

Lemma flat_map_rev_length {X Y : Type} (f : X -> list Y) (xs : list X) :
  List.length (flat_map f (rev xs)) = List.length (flat_map f xs).
Proof.
  induction xs as [|x rest IH]; simpl; [reflexivity|].
  rewrite flat_map_app, !length_app, IH. simpl. rewrite app_nil_r. lia.
Qed.

Lemma hover_nonempty (data : Diagram) :
  data <> [] ->
  Forall (fun l => components l <> []) data ->
  hover (layers data) (len (layers data)) <> [].
Proof.
  intros Hne Hall Hnil.
  apply (f_equal (@List.length _)) in Hnil.
  rewrite <- (length_map (fun item => (h_name item, h_description item))) in Hnil.
  unfold hover, enumerate in Hnil. rewrite hover_per_component in Hnil.
  rewrite length_map in Hnil. unfold layers in Hnil.
  rewrite flat_map_rev_length in Hnil.
  destruct data as [|l rest]; [congruence|].
  inversion Hall as [|? ? Hl _]; subst.
  simpl in Hnil. rewrite length_app in Hnil.
  destruct (components l); [congruence|]. simpl in Hnil. lia.
Qed.

End Counts.

Section Frame.
Context {R : Type} {A : Arith R}.

Definition caption (total_layers : Z) : Annotation R :=
  {| a_x := of_int 0;
     a_y := add (mul (of_int total_layers) (add layer_height layer_gap)) (lit 3 10);
     a_text := "↓ Data Flow: Frontend → API Gateway → Microservices → Databases/External Systems ↓";
     a_showarrow := false;
     a_ax := None; a_ay := None; a_axref := None; a_ayref := None; a_textangle := None |}.

(** The figure [fig] with everything the script draws for [data] added. *)
Definition with_drawing (data : Diagram) (fig : Figure R) : Figure R :=
  let ls := layers data in
  let total := len ls in
  {| shapes := shapes fig ++ separators total ++ boxes ls total;
     traces := traces fig ++ [hover_trace (hover ls total)];
     annotations :=
       annotations fig ++ map name_annotation (hover ls total)
       ++ layer_labels ls total ++ arrows total ++ [caption total];
     title := Some "DaorsAgro Platform Architecture"%string;
     xaxis_range := Some (of_int (-10), of_int 10);
     yaxis_range :=
       Some (of_int (-1),
             add (mul (of_int total) (add layer_height layer_gap)) (of_int 1)) |}.

Lemma drawn_with_drawing (data : Diagram) (fig : Figure R) :
  drawn data fig = with_drawing data fig.
Proof.
  unfold drawn, with_drawing, add_caption, set_layout, update_layout,
    add_annotation, add_annotations, add_trace, add_shapes, caption.
  cbn [shapes traces annotations title xaxis_range yaxis_range].
  now rewrite <- !app_assoc.
Qed.

End Frame.

(** The script run from any figure: the hover trace cannot be built from
    empty hover data; otherwise the run ends with the drawing added. *)
Lemma run_on_any_figure {R : Type} {A : Arith R}
  (data : Diagram) (fig : Figure R) :
  run data fig
  = match hover (R:=R) (layers data) (len (layers data)) with
    | [] => Raise (KeyError "x")
    | _ :: _ =>
        Ok (with_drawing data fig, hover (layers data) (len (layers data)))
    end.
Proof.
  destruct (hover (R:=R) (layers data) (len (layers data))) as [|item rest] eqn:Hh.
  - now apply run_no_hover.
  - rewrite run_ok by (rewrite Hh; discriminate).
    now rewrite drawn_with_drawing, Hh.
Qed.

(** The script adds to the figure and never reads it: run from any
    figure, it keeps the figure's earlier content and adds after it what
    it draws on the empty figure it creates; with no component at all the
    run stops when the hover trace is built.  (That the outcome is fixed by
    the diagram is no theorem here: an embedding as a function has it by
    construction.) *)
Theorem script_depends_on_diagram_only {R : Type} {A : Arith R}
  (data : Diagram) (fig : Figure R) :
  let drawing := with_drawing (R:=R) data empty_figure in
  let hover_data := hover (R:=R) (layers data) (len (layers data)) in
  script data
  = match hover_data with
    | [] => Raise (KeyError "x")
    | _ :: _ => Ok (drawing, hover_data)
    end
  /\ run data fig
     = match hover_data with
       | [] => Raise (KeyError "x")
       | _ :: _ => Ok (with_drawing data fig, hover_data)
       end
  /\ shapes (with_drawing data fig) = shapes fig ++ shapes drawing
  /\ traces (with_drawing data fig) = traces fig ++ traces drawing
  /\ annotations (with_drawing data fig) = annotations fig ++ annotations drawing
  /\ title (with_drawing data fig) = title drawing
  /\ xaxis_range (with_drawing data fig) = xaxis_range drawing
  /\ yaxis_range (with_drawing data fig) = yaxis_range drawing.
Proof.
  intros drawing hover_data.
  split; [apply run_on_any_figure|].
  split; [apply run_on_any_figure|].
  repeat split; reflexivity.
Qed.

(** No run of the script divides by zero. *)
Lemma run_never_divides_by_zero {R : Type} {A : Arith R}
  (data : Diagram) (fig : Figure R) :
  run data fig <> Raise ZeroDivisionError.
Proof.
  destruct (hover (R:=R) (layers data) (len (layers data))) as [|item rest] eqn:Hh.
  - rewrite run_no_hover by assumption. discriminate.
  - rewrite run_ok by (rewrite Hh; discriminate). discriminate.
Qed.

(** A diagram the data model excludes: no layer, or a layer without
    components. *)
Definition malformed (data : Diagram) : Prop :=
  data = [] \/ Exists (fun l => components l = []) data.

(** The claim C3 as it is worded, a division by zero on some malformed
    diagram, fails: in binary64 as in exact arithmetic no diagram makes
    the script raise [ZeroDivisionError]. *)
Lemma no_division_by_zero :
  ~ (exists (data : Diagram) (fig : Figure float),
       malformed data /\ run data fig = Raise ZeroDivisionError)
  /\ ~ (exists (data : Diagram) (fig : Figure Q),
          malformed data /\ run data fig = Raise ZeroDivisionError).
Proof.
  split; intros [d [fig [_ H]]]; now apply run_never_divides_by_zero in H.
Qed.

(** C3, as the script has it: the loops are not guarded and never divide
    by zero, every divisor being the literal 2.  On any diagram, malformed
    or not, each loop runs to its end.  With no layer they add nothing;
    a layer without components gets [total_width = -0.3] and
    [start_x = 0.15], and a row with no rectangle and no hover entry. *)
Theorem malformed_diagram_layout {R : Type} {A : Arith R}
  (data : Diagram) (fig : Figure R) :
  let ls := layers data in
  let total := len ls in
  add_separators total fig = Ok (add_shapes (separators total) fig)
  /\ add_components ls total fig
     = Ok (add_shapes (boxes ls total) fig, hover ls total)
  /\ add_layer_labels ls total fig
     = Ok (add_annotations (layer_labels ls total) fig)
  /\ add_arrows total fig = Ok (add_annotations (arrows total) fig)
  /\ run data fig <> Raise ZeroDivisionError
  /\ (forall x : R, div x (of_int 2) = Ok (quot x (of_int 2)))
  /\ (separators (R:=R) (len (layers [])) = []
      /\ boxes (R:=R) (layers []) (len (layers [])) = []
      /\ hover (R:=R) (layers []) (len (layers [])) = []
      /\ layer_labels (R:=R) (layers []) (len (layers [])) = []
      /\ arrows (R:=R) (len (layers [])) = [])
  /\ (forall (idx : Z) (lname : string),
        start_x (R:=R) (len (@nil Component)) = Ok (first_x 0)
        /\ row_boxes (R:=R) total
             (idx, {| layer_name := lname; components := [] |}) = []
        /\ row_hover (R:=R) total
             (idx, {| layer_name := lname; components := [] |}) = [])
  /\ (total_width (R:=Q) 0 == - (3 # 10) /\ first_x (R:=Q) 0 == 15 # 100)%Q
  /\ (total_width (R:=float) 0 = neg (lit 3 10)
      /\ first_x (R:=float) 0 = lit 15 100).
Proof.
  intros ls total.
  split; [apply add_separators_ok|].
  split; [apply add_components_ok|].
  split; [apply add_layer_labels_ok|].
  split; [apply add_arrows_ok|].
  split; [apply run_never_divides_by_zero|].
  split; [apply div_two|].
  split; [repeat split; reflexivity|].
  split; [intros idx lname; split; [apply start_x_ok|split; reflexivity]|].
  split; split; vm_compute; reflexivity.
Qed.

(** C7: for a diagram of n >= 1 layers, none of them empty, the script
    runs to its end and draws n rows of rectangles (none empty), n - 1
    separator lines, n - 1 groups of 3 arrows, and one hover entry per
    component. *)
Theorem primitive_counts {R : Type} {A : Arith R} (data : Diagram) :
  data <> [] ->
  Forall (fun l => components l <> []) data ->
  let ls := layers data in
  let total := len ls in
  let n := List.length data in
  let rows := map (row_boxes (R:=R) total) (enumerate ls) in
  let groups := map (arrow_group (R:=R) total) (range 0 (total - 1)) in
  exists (fig : Figure R) (hover_data : list (HoverEntry R)),
    script data = Ok (fig, hover_data)
    /\ filter is_rect (shapes fig) = List.concat rows
    /\ List.length rows = n
    /\ Forall (fun row => row <> []) rows
    /\ List.length (filter is_layer_label (annotations fig)) = n
    /\ List.length (filter is_line (shapes fig)) = (n - 1)%nat
    /\ filter (@a_showarrow R) (annotations fig) = List.concat groups
    /\ List.length groups = (n - 1)%nat
    /\ Forall (fun group => List.length group = 3%nat) groups
    /\ map (fun item => (h_name item, h_description item)) hover_data
       = map (fun c => (name c, description c)) (flat_map (@components) ls)
    /\ List.length hover_data = List.length (flat_map (@components) data)
    /\ List.length (filter is_rect (shapes fig))
       = List.length (flat_map (@components) data).
Proof.
  intros Hne Hall ls total n rows groups.
  assert (Hn : List.length ls = n) by apply length_rev.
  exists (with_drawing data empty_figure), (hover ls total).
  assert (Hrect : filter is_rect (shapes (with_drawing (R:=R) data empty_figure))
                  = boxes ls total).
  { cbn [with_drawing shapes empty_figure app]. rewrite filter_app.
    rewrite filter_none by (intros s Hs; now apply separators_are_lines in Hs).
    rewrite filter_all by (intros s Hs; now apply boxes_are_rects in Hs).
    reflexivity. }
  assert (Hline : filter is_line (shapes (with_drawing (R:=R) data empty_figure))
                  = separators total).
  { cbn [with_drawing shapes empty_figure app]. rewrite filter_app.
    rewrite filter_all by (intros s Hs; now apply separators_are_lines in Hs).
    rewrite filter_none by (intros s Hs; now apply boxes_are_rects in Hs).
    now rewrite app_nil_r. }
  assert (Hper : map (fun item : HoverEntry R => (h_name item, h_description item))
                   (hover ls total)
                 = map (fun c => (name c, description c)) (flat_map (@components) ls)).
  { apply hover_per_component. }
  split.
  { unfold script. rewrite run_on_any_figure.
    fold ls total. destruct (hover ls total) eqn:Hh; [|reflexivity].
    exfalso. now apply (hover_nonempty (R:=R) Hne Hall). }
  split; [rewrite Hrect; unfold boxes, rows; apply flat_map_concat_map|].
  split; [unfold rows, enumerate; now rewrite length_map, enumerate_from_length|].
  split.
  { unfold rows. apply Forall_forall. intros row Hrow.
    apply in_map_iff in Hrow. destruct Hrow as [il [Hrow Hil]]. subst row.
    intros Hnil. apply (f_equal (@List.length _)) in Hnil.
    rewrite row_boxes_length in Hnil.
    assert (Hin : In (snd il) data).
    { apply in_rev. fold (layers data). fold ls.
      rewrite <- (enumerate_from_snd ls 0). now apply in_map. }
    rewrite Forall_forall in Hall. specialize (Hall _ Hin).
    destruct (components (snd il)); [congruence|discriminate]. }
  split.
  { cbn [with_drawing annotations empty_figure app].
    rewrite !filter_app.
    rewrite (filter_none is_layer_label (map name_annotation (hover ls total))).
    2:{ intros a Ha. apply in_map_iff in Ha. destruct Ha as [item [Ha _]].
        now subst a. }
    rewrite (filter_all is_layer_label (layer_labels ls total)).
    2:{ intros a Ha. unfold layer_labels in Ha. apply in_map_iff in Ha.
        destruct Ha as [il [Ha _]]. now subst a. }
    rewrite (filter_none is_layer_label (arrows total)).
    2:{ intros a Ha. unfold arrows in Ha. apply in_flat_map in Ha.
        destruct Ha as [idx [_ Ha]]. unfold arrow_group in Ha.
        apply in_map_iff in Ha. destruct Ha as [x [Ha _]]. now subst a. }
    cbn [filter caption is_layer_label a_textangle app]. rewrite app_nil_r.
    unfold layer_labels, enumerate.
    now rewrite length_map, enumerate_from_length. }
  split.
  { rewrite Hline. unfold separators. rewrite length_map, range_length.
    unfold total, len. rewrite Hn. lia. }
  split.
  { cbn [with_drawing annotations empty_figure app].
    rewrite !filter_app.
    rewrite (filter_none (@a_showarrow R) (map name_annotation (hover ls total)))
      by apply names_show_no_arrow.
    rewrite (filter_none (@a_showarrow R) (layer_labels ls total))
      by apply labels_show_no_arrow.
    rewrite (filter_all (@a_showarrow R) (arrows total))
      by apply arrows_show_arrow.
    cbn [filter caption a_showarrow app]. rewrite app_nil_r.
    unfold arrows, groups. apply flat_map_concat_map. }
  split.
  { unfold groups. rewrite length_map, range_length.
    unfold total, len. rewrite Hn. lia. }
  split.
  { unfold groups. apply Forall_forall. intros g Hg.
    apply in_map_iff in Hg. destruct Hg as [idx [Hg _]]. now subst g. }
  split; [exact Hper|].
  split.
  { rewrite <- (length_map (fun item : HoverEntry R => (h_name item, h_description item))).
    rewrite Hper, length_map. apply flat_map_rev_length. }
  rewrite Hrect. unfold boxes, enumerate. rewrite boxes_per_component.
  apply flat_map_rev_length.
Qed.

Lemma primitive_counts_witness :
  data <> []
  /\ Forall (fun l => components l <> []) data
  /\ exists (fig : Figure float) (hover_data : list (HoverEntry float)),
       script data = Ok (fig, hover_data)
       /\ List.length (filter is_rect (shapes fig)) = 22%nat
       /\ List.length (filter is_line (shapes fig)) = 5%nat
       /\ List.length (filter (@a_showarrow float) (annotations fig)) = 15%nat
       /\ List.length hover_data = 22%nat.
Proof.
  assert (Hne : data <> []) by discriminate.
  assert (Hall : Forall (fun l => components l <> []) data)
    by (repeat constructor; discriminate).
  split; [exact Hne|]. split; [exact Hall|].
  destruct (@primitive_counts float float_Arith data Hne Hall)
    as [fig [hd [Hrun [_ [_ [_ [_ [Hl [Ha [Hg [H3 [_ [Hh Hr]]]]]]]]]]]]].
  exists fig, hd.
  split; [exact Hrun|].
  split; [exact Hr|].
  split; [exact Hl|].
  split; [rewrite Ha; reflexivity|exact Hh].
Defined.

(** ** What [replace] removes *)

Local Open Scope string_scope.

Lemma str_app_assoc (a b c : string) : (a ++ b) ++ c = a ++ b ++ c.
Proof. induction a as [|x a IH]; simpl; [reflexivity|]. now rewrite IH. Qed.

Lemma str_length_app (a b : string) :
  String.length (a ++ b) = (String.length a + String.length b)%nat.
Proof. induction a as [|x a IH]; simpl; [reflexivity|]. now rewrite IH. Qed.

Lemma prefix_app (old b : string) : String.prefix old (old ++ b) = true.
Proof.
  induction old as [|x old IH]; simpl; [destruct b; reflexivity|].
  destruct (ascii_dec x x); [assumption|congruence].
Qed.

Lemma prefix_true (old s : string) :
  String.prefix old s = true -> exists b, s = old ++ b.
Proof.
  revert s. induction old as [|x old IH]; intros s H.
  - now exists s.
  - destruct s as [|y s]; [discriminate|]. simpl in H.
    destruct (ascii_dec x y) as [->|]; [|discriminate].
    destruct (IH _ H) as [b ->]. now exists b.
Qed.

Lemma replace_from_skip (old new a b : string) :
  replace_from old new (String.length a) (a ++ b) = replace_from old new 0 b.
Proof.
  induction a as [|x a IH]; simpl; [|assumption].
  destruct b; reflexivity.
Qed.

(** The two equations of Python's left-to-right scan. *)
Lemma replace_here (old new b : string) :
  old <> "" -> replace old new (old ++ b) = new ++ replace old new b.
Proof.
  intros Hne. destruct old as [|x old]; [congruence|].
  unfold replace. cbn [append replace_from].
  change (String x (old ++ b)) with (String x old ++ b).
  rewrite prefix_app.
  replace (String.length (String x old) - 1)%nat with (String.length old)
    by (simpl; lia).
  now rewrite replace_from_skip.
Qed.

Lemma replace_keep (old new : string) (c : ascii) (s : string) :
  String.prefix old (String c s) = false ->
  replace old new (String c s) = String c (replace old new s).
Proof. intros H. unfold replace. cbn [replace_from]. now rewrite H. Qed.

(** [old] occurs in [s]. *)
Definition occurs (old s : string) : Prop :=
  exists a b : string, s = a ++ old ++ b.

(** In [a ++ old], [old] occurs at the end only. *)
Definition first_at_end (old a : string) : Prop :=
  forall a1 b1 : string, a ++ old = a1 ++ old ++ b1 -> a1 = a.

(** [Removed old s r]: [r] is [s] with every occurrence of [old] taken
    out, the occurrences being taken from the left: either [old] does not
    occur in [s], or [s] is [a ++ old ++ b] with this occurrence the first,
    and the rest is removed from [b]. *)
Inductive Removed (old : string) : string -> string -> Prop :=
| Removed_none (s : string) : ~ occurs old s -> Removed old s s
| Removed_first (a b b' : string) :
    first_at_end old a -> Removed old b b' ->
    Removed old (a ++ old ++ b) (a ++ b').

Lemma Removed_keep (old : string) (c : ascii) (s r : string) :
  String.prefix old (String c s) = false ->
  Removed old s r -> Removed old (String c s) (String c r).
Proof.
  intros Hp H. destruct H as [s Hno|a b b' Hfirst Hrest].
  - apply Removed_none. intros [a [b Hs]].
    destruct a as [|x a]; simpl in Hs.
    + rewrite Hs, prefix_app in Hp. discriminate.
    + injection Hs as _ Hs. apply Hno. now exists a, b.
  - change (String c (a ++ old ++ b)) with (String c a ++ old ++ b).
    change (String c (a ++ b')) with (String c a ++ b').
    apply Removed_first; [|assumption].
    intros a1 b1 Heq. destruct a1 as [|x a1]; simpl in Heq.
    + exfalso.
      assert (Hs : String c (a ++ old ++ b) = old ++ b1 ++ b).
      { rewrite <- (str_app_assoc old b1 b), <- Heq. simpl.
        now rewrite str_app_assoc. }
      rewrite Hs, prefix_app in Hp. discriminate.
    + injection Heq as -> Heq. f_equal. exact (Hfirst _ _ Heq).
Qed.

Lemma replace_removes_upto (old : string) (n : nat) :
  old <> "" ->
  forall s : string, (String.length s <= n)%nat -> Removed old s (replace old "" s).
Proof.
  intros Hne. induction n as [|n IH]; intros s Hlen.
  - destruct s; [|simpl in Hlen; lia].
    apply Removed_none. intros [a [b Hs]].
    destruct a; [destruct old; [congruence|discriminate]|discriminate].
  - destruct s as [|c s].
    + apply Removed_none. intros [a [b Hs]].
      destruct a; [destruct old; [congruence|discriminate]|discriminate].
    + destruct (String.prefix old (String c s)) eqn:Hp.
      * destruct (prefix_true _ _ Hp) as [b Hs]. rewrite Hs.
        rewrite replace_here by assumption.
        apply (Removed_first (old := old) (a := "")).
        -- intros a1 b1 Heq. simpl in Heq.
           apply (f_equal String.length) in Heq.
           rewrite !str_length_app in Heq.
           destruct a1; [reflexivity|simpl in Heq; lia].
        -- apply IH. apply (f_equal String.length) in Hs.
           rewrite str_length_app in Hs. simpl in Hs, Hlen.
           destruct old; [congruence|simpl in Hs; lia].
      * rewrite replace_keep by assumption.
        apply Removed_keep; [assumption|]. apply IH. simpl in Hlen. lia.
Qed.

Lemma replace_removes (old s : string) :
  old <> "" -> Removed old s (replace old "" s).
Proof.
  intros Hne. now apply (replace_removes_upto (n := String.length s)).
Qed.

Lemma Removed_length (old s r : string) :
  Removed old s r -> (String.length r <= String.length s)%nat.
Proof.
  induction 1 as [s _|a b b' _ _ IH]; [lia|].
  rewrite !str_length_app. lia.
Qed.

Lemma Removed_shorter (old s r : string) :
  old <> "" -> occurs old s -> Removed old s r ->
  (String.length r < String.length s)%nat.
Proof.
  intros Hne Hocc H. destruct H as [s Hno|a b b' _ Hrest]; [contradiction|].
  apply Removed_length in Hrest. rewrite !str_length_app.
  destruct old; [congruence|simpl; lia].
Qed.

Lemma hover_layer_field {R : Type} {A : Arith R} (total : Z) (ls : list Layer) (i : Z) :
  map (@h_layer R) (flat_map (row_hover total) (enumerate_from i ls))
  = flat_map (fun l => map (fun _ => replace " Layer" "" (layer_name l))
                           (components l)) ls.
Proof.
  revert i. induction ls as [|l rest IH]; intros i; simpl; [reflexivity|].
  rewrite map_app, IH. f_equal.
  unfold row_hover. cbn [fst snd]. rewrite map_map. cbn [h_layer hover_entry].
  rewrite <- (enumerate_from_snd (components l) 0) at 2.
  unfold enumerate. now rewrite map_map.
Qed.

Lemma label_text {R : Type} {A : Arith R} (total : Z) (ls : list Layer) (i : Z) :
  map (@a_text R) (map (layer_label total) (enumerate_from i ls))
  = map (fun l => "<b>" ++ replace " Layer" "" (layer_name l) ++ "</b>") ls.
Proof.
  revert i. induction ls as [|l rest IH]; intros i; simpl; [reflexivity|].
  now rewrite IH.
Qed.

Lemma labels_of_drawing {R : Type} {A : Arith R} (data : Diagram) :
  filter is_layer_label (annotations (with_drawing (R:=R) data empty_figure))
  = layer_labels (layers data) (len (layers data)).
Proof.
  cbn [with_drawing annotations empty_figure app].
  set (ls := layers data). set (total := len ls).
  rewrite !filter_app.
  rewrite (filter_none is_layer_label (map name_annotation (hover ls total))).
  2:{ intros a Ha. apply in_map_iff in Ha. destruct Ha as [item [Ha _]].
      now subst a. }
  rewrite (filter_all is_layer_label (layer_labels ls total)).
  2:{ intros a Ha. unfold layer_labels in Ha. apply in_map_iff in Ha.
      destruct Ha as [il [Ha _]]. now subst a. }
  rewrite (filter_none is_layer_label (arrows total)).
  2:{ intros a Ha. unfold arrows in Ha. apply in_flat_map in Ha.
      destruct Ha as [idx [_ Ha]]. unfold arrow_group in Ha.
      apply in_map_iff in Ha. destruct Ha as [x [Ha _]]. now subst a. }
  cbn [filter caption is_layer_label a_textangle app]. now rewrite app_nil_r.
Qed.

(** C10: the [layer] field of every hover entry and the text of every
    layer label carry the layer's name with every occurrence of " Layer"
    removed, not the name itself (where " Layer" occurs, the result is
    strictly shorter); the trace the script adds carries these fields as
    custom data, and its hover template puts the word "Layer" back after
    the field.  So it is in the figure the script ends with. *)
Theorem layer_suffix_is_stripped {R : Type} {A : Arith R}
  (data : Diagram) (fig : Figure R) :
  let ls := layers data in
  let total := len ls in
  let stripped := fun l : Layer => replace " Layer" "" (layer_name l) in
  let tooltip := fun item : HoverEntry R =>
    "<b>" ++ h_name item ++ "</b><br>" ++ h_description item
    ++ "<br><i>" ++ h_layer item ++ " Layer</i><extra></extra>" in
  add_components ls total fig
  = Ok (add_shapes (boxes ls total) fig, hover ls total)
  /\ map (@h_layer R) (hover ls total)
     = flat_map (fun l => map (fun _ => stripped l) (components l)) ls
  /\ add_layer_labels ls total fig
     = Ok (add_annotations (layer_labels ls total) fig)
  /\ map (@a_text R) (layer_labels ls total)
     = map (fun l => "<b>" ++ stripped l ++ "</b>") ls
  /\ (forall l : Layer, Removed " Layer" (layer_name l) (stripped l))
  /\ (forall l : Layer,
        occurs " Layer" (layer_name l) ->
        (String.length (stripped l) < String.length (layer_name l))%nat)
  /\ (forall (item : HoverEntry R) (rest : list (HoverEntry R)),
        exists t : Scatter R,
          add_hover_trace (item :: rest) fig = Ok (add_trace t fig)
          /\ s_customdata t
             = map (fun it => [h_name it; h_description it; h_layer it])
                   (item :: rest)
          /\ map (render (s_hovertemplate t)) (s_customdata t)
             = map tooltip (item :: rest))
  /\ (forall (fig' : Figure R) (hover_data : list (HoverEntry R)),
        script data = Ok (fig', hover_data) ->
        map (@h_layer R) hover_data
        = flat_map (fun l => map (fun _ => stripped l) (components l)) ls
        /\ map (@a_text R) (filter is_layer_label (annotations fig'))
           = map (fun l => "<b>" ++ stripped l ++ "</b>") ls
        /\ exists t : Scatter R,
             traces fig' = [t]
             /\ map (render (s_hovertemplate t)) (s_customdata t)
                = map tooltip hover_data).
Proof.
  intros ls total stripped tooltip.
  assert (Hne : " Layer" <> "") by discriminate.
  assert (Htip : forall hd : list (HoverEntry R),
            map (render hovertemplate)
                (map (fun it => [h_name it; h_description it; h_layer it]) hd)
            = map tooltip hd).
  { intros hd. rewrite map_map. apply map_ext. intros it. reflexivity. }
  split; [apply add_components_ok|].
  split; [apply hover_layer_field|].
  split; [apply add_layer_labels_ok|].
  split; [apply label_text|].
  split; [intros l; now apply replace_removes|].
  split.
  { intros l Hocc. apply (Removed_shorter Hne Hocc). now apply replace_removes. }
  split.
  { intros item rest. exists (hover_trace (item :: rest)).
    split; [reflexivity|]. split; [reflexivity|]. apply Htip. }
  intros fig' hd Hrun. unfold script in Hrun.
  rewrite run_on_any_figure in Hrun. fold ls total in Hrun.
  destruct (hover ls total) as [|item rest] eqn:Hh; [discriminate|].
  injection Hrun as <- <-.
  split; [rewrite <- Hh; apply hover_layer_field|].
  split; [rewrite labels_of_drawing; apply label_text|].
  exists (hover_trace (hover ls total)).
  split; [reflexivity|]. rewrite Hh. apply Htip.
Qed.

(** On the embedded diagram: the names lose their " Layer", and the
    tooltip of the first hover entry shows it again. *)
Lemma embedded_layer_names :
  map (fun l => replace " Layer" "" (layer_name l)) data
  = [ "Frontend"; "API Gateway"; "Microservices"; "Message Queue";
      "Database"; "External Integration" ]
  /\ match script (R:=float) data with
     | Ok (fig, item :: _) =>
         render hovertemplate [h_name item; h_description item; h_layer item]
         = "<b>IoT Platforms</b><br>ThingsBoard AWS<br><i>External Integration Layer</i><extra></extra>"
     | _ => False
     end.
Proof. split; vm_compute; reflexivity. Qed.

(** ** The same laws in binary64, on rows and stacks of realistic size

    The laws proved exactly above are checked here in the arithmetic the
    script runs in, by evaluation, for every row of up to 40 components
    and every stack of up to 40 layers. *)

Local Open Scope Z_scope.

Fixpoint disjoint_in_order (row : list (Shape float)) : bool :=
  match row with
  | Rect _ _ x1 _ _ :: rest =>
      match rest with
      | Rect x0' _ _ _ _ :: _ => PrimFloat.leb x1 x0' && disjoint_in_order rest
      | _ => true
      end
  | _ => true
  end.

Definition row_of (n : nat) : Layer :=
  {| layer_name := "Row Layer"; components := repeat (comp "" "" "") n |}.

Lemma no_overlap_in_binary64 :
  forallb (fun n => disjoint_in_order (row_boxes 1 (0, row_of n))) (seq 0 41)
  = true.
Proof. vm_compute. reflexivity. Qed.

Lemma stacking_in_binary64 :
  forallb (fun total =>
             forallb (fun i =>
                        PrimFloat.ltb (y_pos total (i + 1)) (y_pos total i)
                        && PrimFloat.eqb (sub (y_pos total i) (y_pos total (i + 1)))
                                         (add layer_height layer_gap))
                     (range 0 (total - 1)))
          (range 0 41)
  = true.
Proof. vm_compute. reflexivity. Qed.

Lemma arrows_in_binary64 :
  forallb (fun total =>
             forallb (fun i =>
                        forallb (fun a =>
                                   PrimFloat.ltb (y_end total i) (a_y a)
                                   && PrimFloat.ltb (a_y a) (y_start total i))
                                (arrow_group total i))
                     (range 0 (total - 1)))
          (range 0 41)
  = true.
Proof. vm_compute. reflexivity. Qed.

(** ** Further geometry of the drawing, read exactly *)

Local Open Scope Q_scope.

Lemma enumerate_from_bounds {X : Type} (xs : list X) (i k : Z) (x : X) :
  In (k, x) (enumerate_from i xs) -> (i <= k < i + len xs)%Z.
Proof.
  revert i. induction xs as [|y rest IH]; intros i Hin; simpl in Hin; [contradiction|].
  rewrite len_cons. assert (0 <= len rest)%Z by (unfold len; lia).
  destruct Hin as [Heq|Hin].
  - injection Heq as <- _. lia.
  - apply IH in Hin. lia.
Qed.

Lemma Forall2_map_both {X Y Z' : Type} (P : Y -> Z' -> Prop)
  (f : X -> Y) (g : X -> Z') (xs : list X) :
  (forall x, In x xs -> P (f x) (g x)) -> Forall2 P (map f xs) (map g xs).
Proof.
  induction xs as [|x rest IH]; intros H; simpl; constructor.
  - apply H. now left.
  - apply IH. intros y Hy. apply H. now right.
Qed.

Lemma Forall2_flat_map_both {X Y Z' : Type} (P : Y -> Z' -> Prop)
  (f : X -> list Y) (g : X -> list Z') (xs : list X) :
  (forall x, In x xs -> Forall2 P (f x) (g x)) ->
  Forall2 P (flat_map f xs) (flat_map g xs).
Proof.
  induction xs as [|x rest IH]; intros H; simpl; [constructor|].
  apply Forall2_app.
  - apply H. now left.
  - apply IH. intros y Hy. apply H. now right.
Qed.

(** The hover entry [item] is at the centre of the rectangle [s]. *)
Definition at_centre (s : Shape Q) (item : HoverEntry Q) : Prop :=
  match s with
  | Rect x0 y0 x1 y1 _ =>
      h_x item == (x0 + x1) / 2 /\ h_y item == (y0 + y1) / 2
  | Line _ _ _ _ => False
  end.

(** X1: rectangles, hover entries and component names go together: the k-th
    hover entry is at the centre of the k-th rectangle, the k-th name
    annotation is at the same point, and in the hover trace the script
    adds to the figure the k-th marker too. *)
Theorem hover_points_are_box_centres (data : Diagram) (fig : Figure Q) :
  let ls := layers data in
  let total := len ls in
  add_components ls total fig
  = Ok (add_shapes (boxes ls total) fig, hover ls total)
  /\ Forall2 at_centre (boxes ls total) (hover ls total)
  /\ add_component_names (hover ls total) fig
     = Ok (add_annotations (map name_annotation (hover ls total)) fig)
  /\ Forall2 (fun (a : Annotation Q) item =>
                a_x a = h_x item /\ a_y a = h_y item
                /\ a_text a = ("<b>" ++ h_name item ++ "</b>")%string)
             (map name_annotation (hover ls total)) (hover ls total)
  /\ (forall (item : HoverEntry Q) (rest : list (HoverEntry Q)),
        exists t : Scatter Q,
          add_hover_trace (item :: rest) fig = Ok (add_trace t fig)
          /\ combine (s_x t) (s_y t)
             = map (fun it => (h_x it, h_y it)) (item :: rest))
  /\ (forall (fig' : Figure Q) (hover_data : list (HoverEntry Q)),
        script data = Ok (fig', hover_data) ->
        hover_data = hover ls total
        /\ exists t : Scatter Q,
             traces fig' = [t]
             /\ combine (s_x t) (s_y t)
                = map (fun it => (h_x it, h_y it)) hover_data).
Proof.
  intros ls total.
  split; [apply add_components_ok|].
  split.
  { unfold boxes, hover. apply Forall2_flat_map_both. intros il _.
    unfold row_boxes, row_hover. apply Forall2_map_both. intros ic _.
    unfold at_centre, box, hover_entry. cbn [h_x h_y].
    generalize (x_pos (first_x (len (components (snd il)))) (fst ic)).
    generalize (y_pos total (fst il)). intros y x.
    split; exact_arith; lra. }
  split; [apply add_component_names_ok|].
  split.
  { rewrite <- (map_id (hover ls total)) at 2.
    apply Forall2_map_both. intros item _. repeat split. }
  assert (Hmarkers : forall hd : list (HoverEntry Q),
            combine (s_x (hover_trace hd)) (s_y (hover_trace hd))
            = map (fun it => (h_x it, h_y it)) hd).
  { intros hd. unfold hover_trace. cbn [s_x s_y].
    induction hd as [|it rest IH]; simpl; [reflexivity|]. now rewrite IH. }
  split.
  { intros item rest. exists (hover_trace (item :: rest)).
    split; [reflexivity|apply Hmarkers]. }
  intros fig' hd Hrun. unfold script in Hrun.
  rewrite run_on_any_figure in Hrun. fold ls total in Hrun.
  destruct (hover ls total) as [|item rest] eqn:Hh; [discriminate|].
  injection Hrun as <- <-.
  split; [reflexivity|].
  exists (hover_trace (hover ls total)).
  split; [reflexivity|]. rewrite Hh. apply Hmarkers.
Qed.

Lemma inject_Z_nonneg (k : nat) : 0 <= inject_Z (Z.of_nat k).
Proof. change 0 with (inject_Z 0). rewrite <- Zle_Qle. lia. Qed.

Lemma inject_Z_succ_le (a b : Z) : (a < b)%Z -> inject_Z a + 1 <= inject_Z b.
Proof.
  intros H. change 1 with (inject_Z 1). rewrite <- inject_Z_plus, <- Zle_Qle. lia.
Qed.

(** X2: a row is mirror-symmetric about x = 0: its k-th rectangle is the
    mirror image of its k-th rectangle from the right, and the row lies
    within [-total_width/2, total_width/2]. *)
Theorem row_is_mirror_symmetric (total : Z) (il : Z * Layer) (k : nat) :
  (k < List.length (components (snd il)))%nat ->
  let n := List.length (components (snd il)) in
  exists (x0 x1 x0' x1' y : Q) (c c' : string),
    nth k (row_boxes total il) no_shape = Rect x0 y x1 (y + component_height) c
    /\ nth (n - 1 - k) (row_boxes total il) no_shape
       = Rect x0' y x1' (y + component_height) c'
    /\ x0 == - x1'
    /\ x1 == - x0'
    /\ - total_width (Z.of_nat n) / 2 <= x0
    /\ x1 <= total_width (Z.of_nat n) / 2.
Proof.
  intros Hk n. destruct il as [idx layer]. cbn [snd] in *.
  set (cs := components layer) in *.
  set (dc := {| name := ""; description := ""; color := "" |}).
  set (sx := first_x (R:=Q) (len cs)).
  exists (x_pos sx (Z.of_nat k)), (x_pos sx (Z.of_nat k) + component_width).
  exists (x_pos sx (Z.of_nat (n - 1 - k))),
         (x_pos sx (Z.of_nat (n - 1 - k)) + component_width).
  exists (y_pos total idx), (color (nth k cs dc)), (color (nth (n - 1 - k) cs dc)).
  split; [unfold row_boxes; cbn [fst snd]; fold cs;
          now rewrite nth_map_enumerate with (dx := dc) by lia|].
  split; [unfold row_boxes; cbn [fst snd]; fold cs;
          now rewrite nth_map_enumerate with (dx := dc) by (unfold n; lia)|].
  assert (Hn : Z.of_nat (n - 1 - k) = (len cs - 1 - Z.of_nat k)%Z)
    by (unfold len, n; lia).
  assert (Hlen : Z.of_nat n = len cs) by reflexivity.
  assert (H0 := inject_Z_nonneg k).
  assert (H1 : inject_Z (Z.of_nat k) + 1 <= inject_Z (len cs))
    by (apply inject_Z_succ_le; unfold len; fold n; lia).
  rewrite Hn, Hlen. unfold sx. clear Hn Hlen.
  revert H0 H1. generalize (Z.of_nat k). generalize (len cs). intros m j H0 H1.
  repeat split; exact_arith; lra.
Qed.

Lemma row_is_mirror_symmetric_witness :
  exists (x0 x1 x0' x1' y : Q) (c c' : string),
    nth 1 (row_boxes 6 (1%Z, database_layer)) no_shape
    = Rect x0 y x1 (y + component_height) c
    /\ nth 2 (row_boxes 6 (1%Z, database_layer)) no_shape
       = Rect x0' y x1' (y + component_height) c'
    /\ x0 == - x1'
    /\ x1 == - x0'
    /\ - total_width 4 / 2 <= x0
    /\ x1 <= total_width 4 / 2.
Proof.
  apply (@row_is_mirror_symmetric 6 (1%Z, database_layer) 1%nat).
  simpl. lia.
Defined.

(** *** No two rectangles of the figure overlap *)

(** Two rectangles with disjoint interiors: one is left of the other, or
    strictly below it. *)
Definition apart (s t : Shape Q) : Prop :=
  match s, t with
  | Rect x0 y0 x1 y1 _, Rect x0' y0' x1' y1' _ =>
      x1 <= x0' \/ x1' <= x0 \/ y1 < y0' \/ y1' < y0
  | _, _ => False
  end.

Lemma ForallOrdPairs_app {X : Type} (P : X -> X -> Prop) (xs ys : list X) :
  ForallOrdPairs P xs -> ForallOrdPairs P ys ->
  (forall a b, In a xs -> In b ys -> P a b) ->
  ForallOrdPairs P (xs ++ ys).
Proof.
  intros Hx Hy Hxy. induction Hx as [|a xs Ha Hx IH]; simpl; [assumption|].
  constructor.
  - apply Forall_app. split; [assumption|].
    apply Forall_forall. intros b Hb. apply Hxy; [now left|assumption].
  - apply IH. intros a' b Ha' Hb. apply Hxy; [now right|assumption].
Qed.

Lemma ForallOrdPairs_enumerate {X Y : Type} (P : Y -> Y -> Prop)
  (f : Z * X -> Y) (xs : list X) (i : Z) :
  (forall k k' x x', (k < k')%Z -> P (f (k, x)) (f (k', x'))) ->
  ForallOrdPairs P (map f (enumerate_from i xs)).
Proof.
  intros H. revert i. induction xs as [|x rest IH]; intros i; simpl; constructor.
  - apply Forall_forall. intros b Hb. apply in_map_iff in Hb.
    destruct Hb as [[k' x'] [<- Hin]]. apply enumerate_from_bounds in Hin.
    apply H. lia.
  - apply IH.
Qed.

Lemma ForallOrdPairs_rows {X Y : Type} (P : Y -> Y -> Prop)
  (g : Z * X -> list Y) (xs : list X) (i : Z) :
  (forall il, ForallOrdPairs P (g il)) ->
  (forall k k' x x' a b,
      (k < k')%Z -> In a (g (k, x)) -> In b (g (k', x')) -> P a b) ->
  ForallOrdPairs P (flat_map g (enumerate_from i xs)).
Proof.
  intros Hrow Hcross. revert i.
  induction xs as [|x rest IH]; intros i; simpl; [constructor|].
  apply ForallOrdPairs_app; [apply Hrow|apply IH|].
  intros a b Ha Hb. apply in_flat_map in Hb.
  destruct Hb as [[k' x'] [Hin Hb]]. apply enumerate_from_bounds in Hin.
  apply (Hcross i k' x x' a b); [lia|assumption|assumption].
Qed.

(** X3: whatever the diagram, the rectangles the script draws are pairwise
    apart: within a row each is left of the later ones, and every
    rectangle of a later row is strictly below those of the earlier
    rows. *)
Theorem boxes_are_pairwise_apart (data : Diagram) (fig : Figure Q) :
  let ls := layers data in
  let total := len ls in
  add_components ls total fig
  = Ok (add_shapes (boxes ls total) fig, hover ls total)
  /\ ForallOrdPairs apart (boxes ls total).
Proof.
  intros ls total. split; [apply add_components_ok|].
  unfold boxes, enumerate. apply ForallOrdPairs_rows.
  - intros [idx layer]. unfold row_boxes, enumerate.
    apply ForallOrdPairs_enumerate. intros k k' c c' Hk.
    unfold apart, box. cbn [fst snd]. left.
    apply inject_Z_succ_le in Hk. revert Hk.
    generalize (first_x (R:=Q) (len (components layer))). intros sx Hk.
    exact_arith. lra.
  - intros i i' l l' a b Hi Ha Hb.
    unfold row_boxes in Ha, Hb. apply in_map_iff in Ha, Hb.
    destruct Ha as [ic [<- _]]. destruct Hb as [ic' [<- _]].
    unfold apart, box. cbn [fst snd]. right. right. right.
    apply inject_Z_succ_le in Hi. exact_arith. lra.
Qed.

(** *** Separators, arrows and rows *)

(** X4: the separator of boundary [b] lies in the gap between row [b] and
    the row above it, 0.4 under the upper row, and passes 0.2 above the
    heads of the three arrows of that gap, whose x it spans. *)
Theorem separators_pass_above_arrow_heads (total b : Z) :
  exists y : Q,
    separator total b = Line (-8) 8 y y
    /\ y_pos total b + component_height < y
    /\ y == y_pos total (b - 1) - (4 # 10)
    /\ Forall (fun a : Annotation Q =>
                 a_showarrow a = true
                 /\ a_y a == y - (2 # 10)
                 /\ -8 < a_x a < 8)
              (arrow_group total (b - 1)).
Proof.
  eexists. split; [reflexivity|].
  split; [exact_arith; lra|].
  split; [exact_arith; lra|].
  unfold arrow_group. cbn [map].
  repeat constructor; cbn [a_y a_x arrow]; exact_arith; lra.
Qed.

(** *** Everything drawn is inside the vertical axis range *)

Definition shape_within (lo hi : Q) (s : Shape Q) : Prop :=
  match s with
  | Line _ _ y0 y1 => lo < y0 < hi /\ lo < y1 < hi
  | Rect _ y0 _ y1 _ => lo < y0 /\ y0 < y1 /\ y1 < hi
  end.

Definition annotation_within (lo hi : Q) (a : Annotation Q) : Prop :=
  lo < a_y a < hi.

Lemma enumerate_bounds {X : Type} (xs : list X) (il : Z * X) :
  In il (enumerate xs) -> (0 <= fst il < len xs)%Z.
Proof.
  destruct il as [i x]. intros Hin. apply enumerate_from_bounds in Hin.
  cbn [fst]. lia.
Qed.

Lemma index_in_Q (lo i hi : Z) :
  (lo <= i < hi)%Z -> inject_Z lo <= inject_Z i /\ inject_Z i + 1 <= inject_Z hi.
Proof.
  intros [H1 H2]. split; [now rewrite <- Zle_Qle|now apply inject_Z_succ_le].
Qed.

(** X5: whatever the diagram, every y coordinate the script hands to
    plotly (of the separator lines, the rectangles, the hover markers, the
    names, the layer labels, the heads of the arrows and the caption)
    lies strictly inside the y axis range [-1, total_layers * 2 + 1] it
    sets. *)
Theorem drawing_is_inside_the_y_range (data : Diagram) (fig : Figure Q) :
  let d := with_drawing data empty_figure in
  let hi := inject_Z (total_layers data) * (layer_height + layer_gap) + 1 in
  yaxis_range (with_drawing data fig) = Some (-1, hi)
  /\ Forall (shape_within (-1) hi) (shapes d)
  /\ Forall (annotation_within (-1) hi) (annotations d)
  /\ Forall (fun t => Forall (fun y => -1 < y < hi) (s_y t)) (traces d).
Proof.
  intros d hi. unfold d, hi, total_layers.
  set (ls := layers data). set (total := len ls).
  assert (Hhover : forall item, In item (hover (R:=Q) ls total) ->
            -1 < h_y item
            < inject_Z total * (layer_height + layer_gap) + 1).
  { intros item Hin. unfold hover in Hin. apply in_flat_map in Hin.
    destruct Hin as [il [Hil Hin]]. unfold row_hover in Hin.
    apply in_map_iff in Hin. destruct Hin as [ic [<- _]].
    apply enumerate_bounds in Hil. apply index_in_Q in Hil.
    fold total in Hil. change (inject_Z 0) with 0 in Hil.
    cbn [h_y hover_entry]. revert Hil.
    generalize (fst il). intros i Hil. exact_arith. lra. }
  split; [reflexivity|].
  split; [|split].
  - cbn [with_drawing shapes empty_figure app]. fold ls total.
    apply Forall_app. split; apply Forall_forall; intros s Hs.
    + unfold separators in Hs. apply in_map_iff in Hs.
      destruct Hs as [b [<- Hb]]. apply in_range in Hb. apply index_in_Q in Hb.
      change (inject_Z 1) with 1 in Hb.
      unfold separator, shape_within. exact_arith. lra.
    + unfold boxes in Hs. apply in_flat_map in Hs.
      destruct Hs as [il [Hil Hs]]. unfold row_boxes in Hs.
      apply in_map_iff in Hs. destruct Hs as [ic [<- _]].
      apply enumerate_bounds in Hil. apply index_in_Q in Hil.
      fold total in Hil. change (inject_Z 0) with 0 in Hil.
      unfold box, shape_within. revert Hil.
      generalize (fst il). intros i Hil. exact_arith. lra.
  - cbn [with_drawing annotations empty_figure app]. fold ls total.
    repeat (apply Forall_app; split); apply Forall_forall; intros a Ha.
    + apply in_map_iff in Ha. destruct Ha as [item [<- Hin]].
      unfold annotation_within. cbn [a_y a_ay name_annotation].
      now apply Hhover.
    + unfold layer_labels in Ha. apply in_map_iff in Ha.
      destruct Ha as [il [<- Hil]].
      apply enumerate_bounds in Hil. apply index_in_Q in Hil.
      fold total in Hil. change (inject_Z 0) with 0 in Hil.
      unfold annotation_within. cbn [a_y a_ay layer_label]. revert Hil.
      generalize (fst il). intros i Hil. split; exact_arith; lra.
    + unfold arrows in Ha. apply in_flat_map in Ha.
      destruct Ha as [i [Hi Ha]]. apply in_range in Hi. apply index_in_Q in Hi.
      change (inject_Z 0) with 0 in Hi. rewrite inject_Z_sub in Hi.
      change (inject_Z 1) with 1 in Hi.
      unfold arrow_group in Ha. apply in_map_iff in Ha.
      destruct Ha as [x [<- _]].
      unfold annotation_within. cbn [a_y a_ay arrow].
      split; exact_arith; lra.
    + destruct Ha as [<-|[]].
      unfold annotation_within. cbn [a_y a_ay caption].
      assert (H0 : 0 <= inject_Z total) by apply inject_Z_nonneg.
      split; exact_arith; lra.
  - cbn [with_drawing traces empty_figure app]. fold ls total.
    constructor; [|constructor].
    cbn [s_y hover_trace]. apply Forall_forall. intros y Hy.
    apply in_map_iff in Hy. destruct Hy as [item [<- Hin]]. now apply Hhover.
Qed.

(** *** How many components fit in a row *)

Definition within_x (lo hi : Q) (s : Shape Q) : Prop :=
  match s with
  | Line x0 x1 _ _ => lo <= x0 /\ x1 <= hi
  | Rect x0 _ x1 _ _ => lo <= x0 /\ x1 <= hi
  end.

Definition right_of (x : Q) (s : Shape Q) : Prop :=
  match s with
  | Line x0 _ _ _ => x < x0
  | Rect x0 _ _ _ _ => x < x0
  end.

Lemma box_x_bounds (n k : Z) :
  (0 <= k < n)%Z ->
  first_x n <= x_pos (first_x n) k
  /\ x_pos (first_x n) k + component_width <= - first_x n.
Proof.
  intros Hk. apply index_in_Q in Hk. change (inject_Z 0) with 0 in Hk.
  split; exact_arith; lra.
Qed.

Lemma row_within (total idx : Z) (layer : Layer) (lo hi : Q) :
  components layer <> [] ->
  (Forall (within_x lo hi) (row_boxes total (idx, layer))
   <-> lo <= first_x (len (components layer))
       /\ - first_x (len (components layer)) <= hi).
Proof.
  intros Hne. unfold row_boxes. cbn [fst snd].
  set (cs := components layer) in *. split.
  - intros H. rewrite Forall_forall in H.
    destruct cs as [|c rest] eqn:Hcs; [congruence|].
    assert (Hlast : In (len rest, last (c :: rest) c) (enumerate (c :: rest))).
    { unfold enumerate. destruct (exists_last (l := c :: rest)) as [front [z Hz]];
        [discriminate|].
      rewrite Hz, last_last, enumerate_from_app. apply in_or_app. right. left.
      f_equal. apply (f_equal (@len _)) in Hz. rewrite len_cons in Hz.
      unfold len in *. rewrite length_app in Hz. simpl in Hz. lia. }
    split.
    + specialize (H (box (y_pos total idx) (first_x (len (c :: rest))) (0%Z, c))).
      destruct H as [H _]; [apply in_map; now left|].
      cbn [box fst] in H. revert H. rewrite len_cons.
      generalize (len rest). intros m. exact_arith. lra.
    + specialize (H _ (in_map (box (y_pos total idx) (first_x (len (c :: rest)))) _ _ Hlast)).
      destruct H as [_ H]. cbn [box fst] in H. revert H. rewrite len_cons.
      generalize (len rest). intros m. exact_arith. lra.
  - intros [Hlo Hhi]. apply Forall_forall. intros s Hs.
    apply in_map_iff in Hs. destruct Hs as [[k c] [<- Hin]].
    apply enumerate_bounds in Hin. cbn [fst] in Hin.
    destruct (box_x_bounds Hin) as [H1 H2].
    unfold box, within_x. cbn [fst snd add Q_Arith]. split; lra.
Qed.

Lemma row_right_of (total idx : Z) (layer : Layer) (x : Q) :
  components layer <> [] ->
  (Forall (right_of x) (row_boxes total (idx, layer))
   <-> x < first_x (len (components layer))).
Proof.
  intros Hne. unfold row_boxes. cbn [fst snd].
  set (cs := components layer) in *. split.
  - intros H. destruct cs as [|c rest]; [congruence|].
    unfold enumerate in H. cbn [enumerate_from map] in H.
    apply Forall_inv in H. cbn [box fst right_of] in H. revert H.
    rewrite len_cons. generalize (len rest). intros m. exact_arith. lra.
  - intros Hx. apply Forall_forall. intros s Hs.
    apply in_map_iff in Hs. destruct Hs as [[k c] [<- Hin]].
    apply enumerate_bounds in Hin. cbn [fst] in Hin.
    destruct (box_x_bounds Hin) as [H1 _].
    unfold box, right_of. cbn [fst snd]. lra.
Qed.

Lemma first_x_threshold (n m : Z) (bound : Q) :
  inject_Z m * (25 # 10) - (3 # 10) <= 2 * bound ->
  2 * bound < inject_Z (m + 1) * (25 # 10) - (3 # 10) ->
  (- bound <= first_x n <-> (n <= m)%Z).
Proof.
  intros Hm Hm1. split.
  - intros H. destruct (Z.le_gt_cases n m) as [|Hgt]; [assumption|exfalso].
    assert (Hq : inject_Z (m + 1) <= inject_Z n) by (rewrite <- Zle_Qle; lia).
    revert H. exact_arith. revert Hm1 Hq. exact_arith. lra.
  - intros H. rewrite Zle_Qle in H. exact_arith. lra.
Qed.

(** X6: a row of n >= 1 components lies within the x axis range [-10, 10]
    exactly when n <= 8, within the extent [-8, 8] of the separator lines
    exactly when n <= 6, and strictly right of the layer label's anchor
    x = -9 exactly when n <= 7. *)
Theorem row_capacity (total idx : Z) (layer : Layer) :
  components layer <> [] ->
  let row := row_boxes (R:=Q) total (idx, layer) in
  let n := len (components layer) in
  (Forall (within_x (-10) 10) row <-> (n <= 8)%Z)
  /\ (Forall (within_x (-8) 8) row <-> (n <= 6)%Z)
  /\ (Forall (right_of (-9)) row <-> (n <= 7)%Z).
Proof.
  intros Hne row n. unfold row.
  split; [|split].
  - rewrite (@row_within total idx layer (-10) 10 Hne). fold n.
    rewrite <- (@first_x_threshold n 8 10) by (vm_compute; reflexivity || discriminate).
    split; [tauto|]. intros H. split; lra.
  - rewrite (@row_within total idx layer (-8) 8 Hne). fold n.
    rewrite <- (@first_x_threshold n 6 8) by (vm_compute; reflexivity || discriminate).
    split; [tauto|]. intros H. split; lra.
  - rewrite (@row_right_of total idx layer (-9) Hne). fold n.
    split.
    + intros H. destruct (Z.le_gt_cases n 7) as [|Hgt]; [assumption|exfalso].
      assert (Hq : inject_Z 8 <= inject_Z n) by (rewrite <- Zle_Qle; lia).
      revert H. exact_arith. revert Hq. exact_arith. lra.
    + intros H. rewrite Zle_Qle in H. revert H. exact_arith. lra.
Qed.

Lemma row_capacity_witness :
  components (nth 2 data {| layer_name := ""; components := [] |}) <> []
  /\ (Forall (within_x (-10) 10)
        (row_boxes 6 (3%Z, nth 2 data {| layer_name := ""; components := [] |}))
      <-> (7 <= 8)%Z)
  /\ (Forall (within_x (-8) 8)
        (row_boxes 6 (3%Z, nth 2 data {| layer_name := ""; components := [] |}))
      <-> (7 <= 6)%Z)
  /\ (Forall (right_of (-9))
        (row_boxes 6 (3%Z, nth 2 data {| layer_name := ""; components := [] |}))
      <-> (7 <= 7)%Z).
Proof.
  assert (Hne : components (nth 2 data {| layer_name := ""; components := [] |})
                <> []) by discriminate.
  split; [exact Hne|].
  exact (@row_capacity 6 3 (nth 2 data {| layer_name := ""; components := [] |}) Hne).
Defined.

(** ** When the script fails *)

Local Open Scope Z_scope.

Lemma flat_map_nil_iff {X Y : Type} (f : X -> list Y) (xs : list X) :
  flat_map f xs = [] <-> Forall (fun x => f x = []) xs.
Proof.
  induction xs as [|x rest IH]; simpl; split; intros H.
  - constructor.
  - reflexivity.
  - apply app_eq_nil in H. destruct H as [Hx Hrest].
    constructor; [assumption|now apply IH].
  - inversion H as [|? ? Hx Hrest]; subst. rewrite Hx. now apply IH.
Qed.

Lemma hover_length {R : Type} {A : Arith R} (data : Diagram) :
  List.length (hover (R:=R) (layers data) (len (layers data)))
  = List.length (flat_map (@components) data).
Proof.
  rewrite <- (length_map (fun item : HoverEntry R => (h_name item, h_description item))).
  unfold hover, enumerate. rewrite hover_per_component, length_map.
  apply flat_map_rev_length.
Qed.

Lemma hover_nil_iff {R : Type} {A : Arith R} (data : Diagram) :
  hover (R:=R) (layers data) (len (layers data)) = []
  <-> Forall (fun l => components l = []) data.
Proof.
  rewrite <- flat_map_nil_iff. split; intros H.
  - apply length_zero_iff_nil. rewrite <- (hover_length (R:=R)).
    now rewrite H.
  - apply length_zero_iff_nil. rewrite hover_length. now rewrite H.
Qed.

Lemma no_components_dec (l : Layer) : {components l = []} + {components l <> []}.
Proof. destruct (components l); [now left|right; discriminate]. Qed.

(** In the embedding, where plotly accepts every colour: the run fails
    exactly on the diagrams without any component (the empty diagram
    among them), with [KeyError('x')], raised when the hover trace is
    built. *)
Theorem script_fails_only_without_components {R : Type} {A : Arith R}
  (data : Diagram) (fig : Figure R) :
  (run data fig = Raise (KeyError "x")
   <-> Forall (fun l => components l = []) data)
  /\ (forall e : exn, run data fig = Raise e -> e = KeyError "x")
  /\ ((exists l, In l data /\ components l <> [])
      <-> exists fig' hover_data, run data fig = Ok (fig', hover_data)).
Proof.
  rewrite run_on_any_figure. rewrite <- (hover_nil_iff (R:=R)).
  destruct (hover (R:=R) (layers data) (len (layers data))) as [|item rest] eqn:Hh.
  - split; [tauto|]. split; [intros e He; now injection He as <-|].
    split.
    + intros [l [Hin Hl]]. exfalso. apply hover_nil_iff in Hh.
      rewrite Forall_forall in Hh. now apply Hl, Hh.
    + intros [fig' [hd H]]. discriminate.
  - split; [split; discriminate|]. split; [discriminate|].
    split; [eauto|]. intros _.
    destruct (Forall_Exists_dec (fun l => components l = []) no_components_dec data)
      as [Hall|Hex].
    + apply hover_nil_iff in Hall. rewrite Hh in Hall. discriminate.
    + apply Exists_exists in Hex. exact Hex.
Qed.

(** ** [replace], for any replacement text *)

Local Open Scope string_scope.

Lemma prefix_of_app (old s b : string) :
  (String.length old <= String.length s)%nat ->
  String.prefix old (s ++ b) = true -> String.prefix old s = true.
Proof.
  revert s. induction old as [|x old IH]; intros s Hlen H.
  - destruct s; reflexivity.
  - destruct s as [|y s]; [simpl in Hlen; lia|].
    simpl in H |- *. destruct (ascii_dec x y); [|discriminate].
    apply IH; [simpl in Hlen; lia|assumption].
Qed.

Lemma first_at_end_tail (old : string) (c : ascii) (a : string) :
  first_at_end old (String c a) -> first_at_end old a.
Proof.
  intros H a1 b1 Heq.
  assert (H' : String c a ++ old = String c a1 ++ old ++ b1)
    by (simpl; now rewrite Heq).
  apply H in H'. now injection H'.
Qed.

Lemma replace_first (old new a b : string) :
  old <> "" -> first_at_end old a ->
  replace old new (a ++ old ++ b) = a ++ new ++ replace old new b.
Proof.
  intros Hne. induction a as [|c a IH]; intros Hfirst.
  - cbn [append]. now apply replace_here.
  - cbn [append]. rewrite replace_keep.
    + f_equal. apply IH. now apply first_at_end_tail in Hfirst.
    + destruct (String.prefix old (String c (a ++ old ++ b))) eqn:Hp; [|reflexivity].
      exfalso.
      change (String c (a ++ old ++ b)) with (String c a ++ old ++ b) in Hp.
      rewrite <- str_app_assoc in Hp. apply prefix_of_app in Hp.
      * apply prefix_true in Hp. destruct Hp as [b1 Hb1].
        specialize (Hfirst "" b1 Hb1). discriminate.
      * rewrite str_length_app. lia.
Qed.

Lemma replace_absent (old new s : string) :
  ~ occurs old s -> replace old new s = s.
Proof.
  induction s as [|c s IH]; intros Hno; [reflexivity|].
  rewrite replace_keep.
  - f_equal. apply IH. intros [a [b Hs]]. apply Hno.
    exists (String c a), b. simpl. now rewrite Hs.
  - destruct (String.prefix old (String c s)) eqn:Hp; [|reflexivity].
    exfalso. apply prefix_true in Hp. destruct Hp as [b Hb].
    apply Hno. now exists "", b.
Qed.

(** X8: [replace old new], for a non-empty [old]: a string in which [old]
    does not occur is returned as it is; in [a ++ old ++ b], where this
    occurrence of [old] is the first, the occurrence becomes [new], [a]
    is kept, and the scan goes on in [b], after the occurrence (so what
    [new] brings in is never scanned again). *)
Theorem replace_scans_left_to_right (old new : string) :
  old <> "" ->
  (forall s : string, ~ occurs old s -> replace old new s = s)
  /\ (forall a b : string,
        first_at_end old a ->
        replace old new (a ++ old ++ b) = a ++ new ++ replace old new b)
  /\ replace old new old = new.
Proof.
  intros Hne. split; [intros s; apply replace_absent|].
  split; [intros a b; now apply replace_first|].
  assert (H : replace old new ("" ++ old ++ "") = "" ++ new ++ replace old new "").
  { apply replace_first; [assumption|].
    intros a1 b1 Heq. simpl in Heq. apply (f_equal String.length) in Heq.
    rewrite !str_length_app in Heq. destruct a1; [reflexivity|simpl in Heq; lia]. }
  simpl in H.
  assert (Hr : forall t : string, t ++ "" = t)
    by (induction t as [|x t IHt]; simpl; [reflexivity|now rewrite IHt]).
  now rewrite !Hr in H.
Qed.

Lemma replace_scans_left_to_right_witness :
  " Layer" <> ""
  /\ (forall s : string, ~ occurs " Layer" s -> replace " Layer" "" s = s)
  /\ (forall a b : string,
        first_at_end " Layer" a ->
        replace " Layer" "" (a ++ " Layer" ++ b) = a ++ "" ++ replace " Layer" "" b)
  /\ replace " Layer" "" " Layer" = "".
Proof.
  assert (Hne : " Layer" <> "") by discriminate.
  split; [exact Hne|].
  exact (@replace_scans_left_to_right " Layer" "" Hne).
Defined.

(** The tooltip of a component, with [shown] on its last line. *)
Definition tooltip_text (c : Component) (shown : string) : string :=
  "<b>" ++ name c ++ "</b><br>" ++ description c ++ "<br><i>" ++ shown
  ++ "</i><extra></extra>".

Lemma tooltips_of_hover {R : Type} {A : Arith R} (total : Z) (ls : list Layer) (i : Z) :
  map (fun it : HoverEntry R =>
         render hovertemplate [h_name it; h_description it; h_layer it])
      (flat_map (row_hover total) (enumerate_from i ls))
  = flat_map (fun l => map (fun c =>
                              tooltip_text c
                                (replace " Layer" "" (layer_name l) ++ " Layer"))
                           (components l)) ls.
Proof.
  revert i. induction ls as [|l rest IH]; intros i; simpl; [reflexivity|].
  rewrite map_app, IH. f_equal.
  unfold row_hover. cbn [fst snd]. rewrite map_map.
  rewrite <- (enumerate_from_snd (components l) 0) at 2.
  unfold enumerate. rewrite map_map. apply map_ext. intros [k c].
  cbn [render hovertemplate nth h_name h_description h_layer hover_entry snd].
  unfold tooltip_text. now rewrite !str_app_assoc.
Qed.

Lemma strip_then_append (base : string) :
  first_at_end " Layer" base ->
  replace " Layer" "" (base ++ " Layer") ++ " Layer" = base ++ " Layer".
Proof.
  intros Hfirst.
  assert (Hr : forall t : string, t ++ "" = t)
    by (induction t as [|x t IHt]; simpl; [reflexivity|now rewrite IHt]).
  rewrite <- (Hr (base ++ " Layer")) at 1. rewrite str_app_assoc.
  rewrite replace_first by (assumption || discriminate).
  simpl. now rewrite Hr.
Qed.

(** The name of [l] is some [base ++ " Layer"], with " Layer" nowhere
    else in it. *)
Definition named_as_layer (l : Layer) : Prop :=
  exists base : string,
    layer_name l = base ++ " Layer" /\ first_at_end " Layer" base.

(** X9: the tooltips give the layers their names back: when every layer's
    name is some [base ++ " Layer"] with no other occurrence of " Layer"
    in it, the one trace of the figure the script ends with renders, for
    each component in loop order, its name, its description and the name
    of its layer as the diagram has it. *)
Theorem tooltip_restores_layer_name {R : Type} {A : Arith R}
  (data : Diagram) (fig' : Figure R) (hover_data : list (HoverEntry R)) :
  Forall named_as_layer data ->
  script data = Ok (fig', hover_data) ->
  exists t : Scatter R,
    traces fig' = [t]
    /\ s_customdata t
       = map (fun it => [h_name it; h_description it; h_layer it]) hover_data
    /\ map (render (s_hovertemplate t)) (s_customdata t)
       = flat_map (fun l => map (fun c => tooltip_text c (layer_name l))
                                (components l))
                  (layers data).
Proof.
  intros Hnames Hrun. unfold script in Hrun.
  rewrite run_on_any_figure in Hrun.
  set (ls := layers data) in *. set (total := len ls) in *.
  destruct (hover ls total) as [|item rest] eqn:Hh; [discriminate|].
  injection Hrun as <- <-.
  exists (hover_trace (hover ls total)).
  split; [reflexivity|]. split; [now rewrite Hh|].
  cbn [s_hovertemplate s_customdata hover_trace]. rewrite map_map.
  unfold hover, enumerate. rewrite tooltips_of_hover.
  assert (Hls : Forall named_as_layer ls) by (unfold ls, layers; now apply Forall_rev).
  clear Hh. induction Hls as [|l ls' [base [Hl Hfirst]] _ IH]; simpl; [reflexivity|].
  rewrite IH. f_equal. apply map_ext. intros c.
  rewrite Hl. now rewrite strip_then_append.
Qed.

Ltac first_at_end_by_cases :=
  let H := fresh "H" in
  intros ? ? H;
  repeat match goal with
    | H : _ = ?a1 ++ _ |- _ =>
        is_var a1; destruct a1 as [|? a1]; simpl in H;
        [first [discriminate H|reflexivity]
        |first [discriminate H|injection H as <- H]]
    end.

Lemma embedded_names_are_layers : Forall named_as_layer data.
Proof.
  repeat constructor.
  - exists "Frontend". split; [reflexivity|first_at_end_by_cases].
  - exists "API Gateway". split; [reflexivity|first_at_end_by_cases].
  - exists "Microservices". split; [reflexivity|first_at_end_by_cases].
  - exists "Message Queue". split; [reflexivity|first_at_end_by_cases].
  - exists "Database". split; [reflexivity|first_at_end_by_cases].
  - exists "External Integration". split; [reflexivity|first_at_end_by_cases].
Qed.

Lemma tooltip_restores_layer_name_witness :
  Forall named_as_layer data
  /\ exists (fig' : Figure float) (hover_data : list (HoverEntry float)),
       script data = Ok (fig', hover_data)
       /\ exists t : Scatter float,
            traces fig' = [t]
            /\ s_customdata t
               = map (fun it => [h_name it; h_description it; h_layer it])
                     hover_data
            /\ map (render (s_hovertemplate t)) (s_customdata t)
               = flat_map (fun l => map (fun c => tooltip_text c (layer_name l))
                                        (components l))
                          (layers data).
Proof.
  split; [exact embedded_names_are_layers|].
  destruct (script (R:=float) data) as [[fig' hd]|e] eqn:Hs.
  - exists fig', hd. split; [reflexivity|].
    exact (@tooltip_restores_layer_name float float_Arith data fig' hd
             embedded_names_are_layers Hs).
  - exfalso. vm_compute in Hs. discriminate Hs.
Defined.

(** ** Input order and rows *)

Local Open Scope Q_scope.

(** X10: the input order runs bottom-up: the layer at input index j (from 0)
    is the row of reversed index n - 1 - j and gets the row origin
    [j * (layer_height + layer_gap)], so each input layer is drawn one
    step above the layer before it in the input. *)
Theorem input_order_is_bottom_up (data : Diagram) (j : nat) :
  (j < List.length data)%nat ->
  let n := List.length data in
  let none := {| layer_name := ""; components := [] |} in
  exists y : Q,
    nth (n - 1 - j) (enumerate (layers data)) (0%Z, none)
    = (Z.of_nat (n - 1 - j), nth j data none)
    /\ nth (n - 1 - j) (row_origins data) (EmptyString, 0)
       = (layer_name (nth j data none), y)
    /\ y == inject_Z (Z.of_nat j) * (layer_height + layer_gap).
Proof.
  intros Hj n none.
  assert (Hrev : nth (n - 1 - j) (layers data) none = nth j data none).
  { unfold layers. rewrite rev_nth by (fold n; lia). f_equal. fold n. lia. }
  assert (Hlen : (n - 1 - j < List.length (layers data))%nat)
    by (unfold layers; rewrite length_rev; fold n; lia).
  exists (y_pos (total_layers data) (Z.of_nat (n - 1 - j))).
  split; [|split].
  - unfold enumerate. rewrite enumerate_from_nth by assumption.
    now rewrite Hrev.
  - unfold row_origins. rewrite nth_map_enumerate with (dx := none) by assumption.
    cbn [fst snd]. now rewrite Hrev.
  - assert (Hn : total_layers data = Z.of_nat n)
      by (unfold total_layers, layers, len; now rewrite length_rev).
    rewrite Hn.
    replace (Z.of_nat (n - 1 - j)) with (Z.of_nat n - 1 - Z.of_nat j)%Z by lia.
    exact_arith. lra.
Qed.

Lemma input_order_is_bottom_up_witness :
  exists y : Q,
    nth 3 (enumerate (layers data)) (0%Z, {| layer_name := ""; components := [] |})
    = (3%Z, nth 2 data {| layer_name := ""; components := [] |})
    /\ nth 3 (row_origins data) (EmptyString, 0)
       = (layer_name (nth 2 data {| layer_name := ""; components := [] |}), y)
    /\ y == 2 * (layer_height + layer_gap).
Proof.
  apply (@input_order_is_bottom_up data 2%nat). simpl. lia.
Defined.

(** X11: each layer label is level with its row: in any arithmetic, binary64
    included, its y is the y of every hover entry (and so of every
    component name) of the row of the same index, and its x is -9. *)
Theorem labels_are_level_with_rows {R : Type} {A : Arith R}
  (data : Diagram) (fig : Figure R) :
  let ls := layers data in
  let total := len ls in
  add_layer_labels ls total fig
  = Ok (add_annotations (layer_labels ls total) fig)
  /\ hover ls total = List.concat (map (row_hover total) (enumerate ls))
  /\ Forall2 (fun (a : Annotation R) (row : list (HoverEntry R)) =>
                a_x a = of_int (-9)
                /\ Forall (fun item => h_y item = a_y a) row)
             (layer_labels ls total)
             (map (row_hover total) (enumerate ls)).
Proof.
  intros ls total.
  split; [apply add_layer_labels_ok|].
  split; [apply flat_map_concat_map|].
  unfold layer_labels. apply Forall2_map_both. intros il _.
  split; [reflexivity|].
  unfold row_hover. apply Forall_forall. intros item Hitem.
  apply in_map_iff in Hitem. destruct Hitem as [ic [<- _]]. reflexivity.
Qed.
